(** * scipy.fftpack.realtransforms: the DCT dispatch layer

    A shallow embedding of [scipy/fftpack/realtransforms.py]: the public
    entry points [dct1], [dct2], [dct3] and the dispatcher [_dct] they share.
    The dispatcher validates its arguments, picks one native kernel of
    [_fftpack] by element type and transform type, moves the transform axis
    to the last position when needed and calls the kernel.

    The input is taken as a NumPy array already ([np.asarray] is the
    identity on arrays); an exception is a value of the result type.  The
    native kernels are not part of the Python sources; they are parameters of
    the development.  Every kernel invocation is recorded in a log together
    with the way its argument aliases the caller's array, so that statements
    about "before any kernel invocation" and about the caller's array being
    left untouched can be made. *)

From Stdlib Require Import String ZArith List Bool Arith Lia.
From Stdlib Require Import Reals Lra.
From Stdlib Require Import Permutation.
Import ListNotations.

Set Implicit Arguments.

(** ** Python values, exceptions and results *)

(** NumPy element types that reach the dispatcher.  [np.double] is
    [float64]. *)
Inductive scalar_type : Type :=
| bool_ | int32 | int64
| float32 | float64 | longdouble
| complex64 | complex128 | clongdouble
| object_.

Definition double : scalar_type := float64.

Definition scalar_type_eqb (a b : scalar_type) : bool :=
  match a, b with
  | bool_, bool_ | int32, int32 | int64, int64
  | float32, float32 | float64, float64 | longdouble, longdouble
  | complex64, complex64 | complex128, complex128
  | clongdouble, clongdouble | object_, object_ => true
  | _, _ => false
  end.

(** The Python objects that are passed as [normalize], or that are
    interpolated into an error message. *)
Inductive pyval : Type :=
| PyNone
| PyBool (b : bool)
| PyInt (z : Z)
| PyStr (s : string)
| PyDtype (t : scalar_type).

(** Truth value testing, as [if normalize:] performs it. *)
Definition truthy (v : pyval) : bool :=
  match v with
  | PyNone => false
  | PyBool b => b
  | PyInt z => negb (z =? 0)%Z
  | PyStr s => negb (String.eqb s EmptyString)
  | PyDtype _ => true
  end.

(** [v == s] for a string literal [s]. *)
Definition eq_str (v : pyval) (s : string) : bool :=
  match v with
  | PyStr s' => String.eqb s' s
  | _ => false
  end.

Inductive exc_class : Type :=
| TypeError | ValueError | IndexError | NotImplementedError.

(** A raised exception: its class, the message (a format string when the
    source builds the message with [%]) and the formatted argument. *)
Record exception : Type := Exc {
  exc_class_of : exc_class;
  exc_msg : string;
  exc_arg : option pyval
}.

Inductive result (A : Type) : Type :=
| Return (a : A)
| Raise (e : exception).

Arguments Return {A} a.
Arguments Raise {A} e.

(** [NotImplemented] is the singleton used by rich comparisons, not an
    exception class.  Applying it to arguments, as line 156 does, is itself
    an error: Python raises [TypeError] for the call and the [raise]
    statement never receives a value. *)
Definition NotImplemented_call (_ : string) : exception :=
  Exc TypeError "'NotImplementedType' object is not callable" None.

(** The exception line 156 ends in. *)
Definition padding_error : exception :=
  NotImplemented_call "Padding/truncating not yet implemented".

(** Index normalisation shared by tuple indexing and NumPy axis arguments:
    a negative index counts from the end. *)
Definition normalize_index (len : nat) (i : Z) : option nat :=
  let l := Z.of_nat len in
  let j := if (i <? 0)%Z then (i + l)%Z else i in
  if ((0 <=? j) && (j <? l))%Z then Some (Z.to_nat j) else None.

(** [t[i]] on a tuple.  An index out of range raises [IndexError]; so
    does, with another message, an index too large for a C index, which is
    not told apart here: of this exception only the class is relied on in
    the statements about arbitrary axes. *)
Definition tuple_getitem (t : list nat) (i : Z) : result nat :=
  match normalize_index (length t) i with
  | Some k =>
      match nth_error t k with
      | Some d => Return d
      | None => Raise (Exc IndexError "tuple index out of range" None)
      end
  | None => Raise (Exc IndexError "tuple index out of range" None)
  end.

(** ** NumPy arrays *)

(** An array: element type, shape and the elements in row-major order.
    The element values themselves are never inspected by the dispatcher. *)
Record ndarray (E : Type) : Type := {
  dtype : scalar_type;
  shape : list nat;
  data : list E
}.

Definition size_of (shp : list nat) : nat := fold_right Nat.mul 1%nat shp.

(** The array invariant: as many elements as the shape announces. *)
Definition well_formed {E} (a : ndarray E) : Prop :=
  length (data a) = size_of (shape a).

Definition ndim {E} (a : ndarray E) : nat := length (shape a).

(** [np.asarray] on an array returns the array itself. *)
Definition asarray {E} (x : ndarray E) : ndarray E := x.

Definition iscomplexobj {E} (a : ndarray E) : bool :=
  match dtype a with
  | complex64 | complex128 | clongdouble => true
  | _ => false
  end.

Definition isrealobj {E} (a : ndarray E) : bool := negb (iscomplexobj a).

(** Row-major position of a multi-index, and back. *)
Fixpoint ravel (shp idx : list nat) : nat :=
  match shp, idx with
  | _ :: ds, i :: is_ => (i * size_of ds + ravel ds is_)%nat
  | _, _ => 0%nat
  end.

Fixpoint unravel (shp : list nat) (p : nat) : list nat :=
  match shp with
  | [] => []
  | _ :: ds => (p / size_of ds)%nat :: unravel ds (p mod size_of ds)%nat
  end.

(** A multi-index that addresses an element of an array of shape [shp]. *)
Definition in_bounds (shp idx : list nat) : Prop := Forall2 lt idx shp.

(** The transposition of two positions. *)
Definition transp (i j k : nat) : nat :=
  if (k =? i)%nat then j else if (k =? j)%nat then i else k.

Definition swap_entries (i j : nat) (l : list nat) : list nat :=
  map (fun k => nth (transp i j k) l 0%nat) (seq 0 (length l)).

(** The elements of [l] found at the positions [ps], in that order. *)
Definition gather {E} (ps : list nat) (l : list E) : list E :=
  flat_map (fun p => match nth_error l p with
                     | Some e => [e]
                     | None => []
                     end) ps.

(** Where element [p] of the swapped array comes from. *)
Definition swapped_source (shp : list nat) (i j p : nat) : nat :=
  ravel shp (swap_entries i j (unravel (swap_entries i j shp) p)).

(** [np.swapaxes(a, axis1, axis2)]: the same elements seen with two axes
    interchanged. *)
Definition swapaxes {E} (a : ndarray E) (axis1 axis2 : Z) : result (ndarray E) :=
  match normalize_index (ndim a) axis1, normalize_index (ndim a) axis2 with
  | Some i, Some j =>
      let shp' := swap_entries i j (shape a) in
      Return {| dtype := dtype a;
                shape := shp';
                data := gather (map (swapped_source (shape a) i j)
                                    (seq 0 (size_of shp'))) (data a) |}
  | None, _ => Raise (Exc ValueError "bad axis1 argument to swapaxes" None)
  | _, None => Raise (Exc ValueError "bad axis2 argument to swapaxes" None)
  end.

(** ** The native kernels of [_fftpack] *)

(** The six routines the dispatcher refers to, under the names they have
    in the extension module: [ddct*] for double precision, [dct*] for single
    precision. *)
Module _fftpack.

Inductive handle : Type :=
| ddct1 | ddct2 | ddct3
| dct1 | dct2 | dct3.

End _fftpack.

Inductive precision : Type := single_precision | double_precision.

Definition handle_precision (h : _fftpack.handle) : precision :=
  match h with
  | _fftpack.ddct1 | _fftpack.ddct2 | _fftpack.ddct3 => double_precision
  | _fftpack.dct1 | _fftpack.dct2 | _fftpack.dct3 => single_precision
  end.

Definition handle_variant (h : _fftpack.handle) : Z :=
  match h with
  | _fftpack.ddct1 | _fftpack.dct1 => 1
  | _fftpack.ddct2 | _fftpack.dct2 => 2
  | _fftpack.ddct3 | _fftpack.dct3 => 3
  end.

(** How a kernel argument aliases the caller's array: it is that array, or
    a view of it with [axis] and the last axis interchanged. *)
Inductive view : Type :=
| Whole
| Swapped (axis : Z).

(** One kernel invocation [f(tmp, n, nm, overwrite_x)]. *)
Record kernel_call (E : Type) : Type := {
  k_fn : _fftpack.handle;
  k_arg : ndarray E;
  k_view : view;
  k_n : Z;
  k_nm : Z;
  k_overwrite : Z
}.

(** ** Computations: a result together with the kernel invocations made *)

Definition M (E A : Type) : Type := (result A * list (kernel_call E))%type.

Definition ret {E A} (a : A) : M E A := (Return a, []).

Definition raise {E A} (e : exception) : M E A := (Raise e, []).

Definition lift {E A} (r : result A) : M E A := (r, []).

Definition bind {E A B} (m : M E A) (k : A -> M E B) : M E B :=
  match m with
  | (Raise e, log) => (Raise e, log)
  | (Return a, log) => let (r, log') := k a in (r, log ++ log')
  end.

Notation "x <- m ;; k" := (bind m (fun x => k))
  (at level 61, m at next level, right associativity).

Definition value {E A} (m : M E A) : result A := fst m.
Definition calls {E A} (m : M E A) : list (kernel_call E) := snd m.

(** ** The dispatcher *)

Section Realtransforms.

(** Element values, opaque to the dispatcher. *)
Variable E : Type.

(** What a kernel returns, and what its argument holds once it has
    returned (a kernel run with a true [overwrite_x] may use its argument
    as scratch space). *)
Variable kernel : _fftpack.handle -> ndarray E -> Z -> Z -> Z -> ndarray E.
Variable kernel_arg_after : _fftpack.handle -> ndarray E -> Z -> Z -> Z -> ndarray E.

(** The record of one invocation. *)
Definition call_of (f : _fftpack.handle) (v : view) (tmp : ndarray E)
    (n nm overwrite_x : Z) : kernel_call E :=
  {| k_fn := f; k_arg := tmp; k_view := v;
     k_n := n; k_nm := nm; k_overwrite := overwrite_x |}.

(** [f(tmp, n, nm, overwrite_x)], with [tmp] reached through [v]. *)
Definition invoke (f : _fftpack.handle) (v : view) (tmp : ndarray E)
    (n nm overwrite_x : Z) : M E (ndarray E) :=
  (Return (kernel f tmp n nm overwrite_x),
   [call_of f v tmp n nm overwrite_x]).

(** Lines 158-177: the kernel for an element type and a transform type. *)
Definition select_kernel (t : scalar_type) (type : Z) : result _fftpack.handle :=
  if scalar_type_eqb t double then
    if (type =? 1)%Z then Return _fftpack.ddct1
    else if (type =? 2)%Z then Return _fftpack.ddct2
    else if (type =? 3)%Z then Return _fftpack.ddct3
    else Raise (Exc ValueError "Type %d not understood" (Some (PyInt type)))
  else if scalar_type_eqb t float32 then
    if (type =? 1)%Z then Return _fftpack.dct1
    else if (type =? 2)%Z then Return _fftpack.dct2
    else if (type =? 3)%Z then Return _fftpack.dct3
    else Raise (Exc ValueError "Type %d not understood" (Some (PyInt type)))
  else Raise (Exc ValueError "dtype %s not supported" (Some (PyDtype t))).

(** Lines 179-185: the normalisation flag handed to the kernel. *)
Definition normalize_flag (normalize : pyval) : result Z :=
  if truthy normalize then
    if eq_str normalize "ortho" then Return 1%Z
    else Raise (Exc ValueError "Unknown normalize mode %s" (Some normalize))
  else Return 0%Z.

(** Line 187: the transform axis is already the last one. *)
Definition is_last (tmp : ndarray E) (axis : Z) : bool :=
  ((axis =? -1) || (axis =? Z.of_nat (length (shape tmp)) - 1))%Z.

(** Lines 129-194. *)
Definition _dct (x : ndarray E) (type : Z) (n : option Z) (axis : Z)
    (overwrite_x : Z) (normalize : pyval) : M E (ndarray E) :=
  let tmp := asarray x in
  if negb (isrealobj tmp) then
    raise (Exc TypeError "1st argument must be real sequence" None)
  else
    n <- match n with
         | None => lift (tuple_getitem (shape tmp) axis)
         | Some _ =>
             raise (NotImplemented_call "Padding/truncating not yet implemented")
         end ;;
    f <- lift (select_kernel (dtype tmp) type) ;;
    nm <- lift (normalize_flag normalize) ;;
    if is_last tmp axis then
      invoke f Whole tmp (Z.of_nat n) nm overwrite_x
    else
      tmp <- lift (swapaxes tmp axis (-1)) ;;
      tmp <- invoke f (Swapped axis) tmp (Z.of_nat n) nm overwrite_x ;;
      lift (swapaxes tmp axis (-1)).

(** The public entry points; [overwrite_x] is left at its default, 0. *)
Definition dct1 (x : ndarray E) (n : option Z) (axis : Z) (norm : pyval) :=
  _dct x 1 n axis 0 norm.

Definition dct2 (x : ndarray E) (n : option Z) (axis : Z) (norm : pyval) :=
  _dct x 2 n axis 0 norm.

Definition dct3 (x : ndarray E) (n : option Z) (axis : Z) (norm : pyval) :=
  _dct x 3 n axis 0 norm.

(** The caller's array after the logged kernel invocations: each one
    leaves [kernel_arg_after] in its argument, which is the caller's array
    or a swapped view of it. *)
Definition write_back (v : view) (arg_after base : ndarray E) : ndarray E :=
  match v with
  | Whole => arg_after
  | Swapped axis =>
      match swapaxes arg_after axis (-1) with
      | Return b => b
      | Raise _ => base
      end
  end.

Definition input_after (x : ndarray E) (log : list (kernel_call E)) : ndarray E :=
  fold_left (fun cur c =>
               write_back (k_view c)
                 (kernel_arg_after (k_fn c) (k_arg c) (k_n c) (k_nm c)
                    (k_overwrite c)) cur)
            log x.

(** Every way a call can go: the five failures of validation, in the
    order of the checks, and the two ways of reaching the kernel. *)
Inductive outcome (x : ndarray E) (type : Z) (n : option Z) (axis : Z)
    (overwrite_x : Z) (normalize : pyval) : Prop :=
| NotReal :
    isrealobj x = false ->
    _dct x type n axis overwrite_x normalize
    = (Raise (Exc TypeError "1st argument must be real sequence" None), []) ->
    outcome x type n axis overwrite_x normalize
| LengthGiven k :
    isrealobj x = true -> n = Some k ->
    _dct x type n axis overwrite_x normalize = (Raise padding_error, []) ->
    outcome x type n axis overwrite_x normalize
| BadAxis :
    isrealobj x = true -> n = None ->
    tuple_getitem (shape x) axis
    = Raise (Exc IndexError "tuple index out of range" None) ->
    _dct x type n axis overwrite_x normalize
    = (Raise (Exc IndexError "tuple index out of range" None), []) ->
    outcome x type n axis overwrite_x normalize
| NoKernel d e :
    isrealobj x = true -> n = None ->
    tuple_getitem (shape x) axis = Return d ->
    select_kernel (dtype x) type = Raise e ->
    _dct x type n axis overwrite_x normalize = (Raise e, []) ->
    outcome x type n axis overwrite_x normalize
| BadNormalize d f :
    isrealobj x = true -> n = None ->
    tuple_getitem (shape x) axis = Return d ->
    select_kernel (dtype x) type = Return f ->
    truthy normalize = true -> eq_str normalize "ortho" = false ->
    _dct x type n axis overwrite_x normalize
    = (Raise (Exc ValueError "Unknown normalize mode %s" (Some normalize)), []) ->
    outcome x type n axis overwrite_x normalize
| Direct d f nm :
    isrealobj x = true -> n = None ->
    tuple_getitem (shape x) axis = Return d ->
    select_kernel (dtype x) type = Return f ->
    normalize_flag normalize = Return nm ->
    is_last x axis = true ->
    _dct x type n axis overwrite_x normalize
    = (Return (kernel f x (Z.of_nat d) nm overwrite_x),
       [call_of f Whole x (Z.of_nat d) nm overwrite_x]) ->
    outcome x type n axis overwrite_x normalize
| ThroughSwap d f nm xs :
    isrealobj x = true -> n = None ->
    tuple_getitem (shape x) axis = Return d ->
    select_kernel (dtype x) type = Return f ->
    normalize_flag normalize = Return nm ->
    is_last x axis = false ->
    swapaxes x axis (-1) = Return xs ->
    _dct x type n axis overwrite_x normalize
    = (swapaxes (kernel f xs (Z.of_nat d) nm overwrite_x) axis (-1),
       [call_of f (Swapped axis) xs (Z.of_nat d) nm overwrite_x]) ->
    outcome x type n axis overwrite_x normalize.

End Realtransforms.

(** The (element type, transform type) pairs of the dispatch table, and
    whether the dispatcher has a kernel for a pair. *)
Definition slots : list (scalar_type * Z) :=
  list_prod [float32; float64] [1; 2; 3]%Z.

Definition populated (s : scalar_type * Z) : bool :=
  match select_kernel (fst s) (snd s) with
  | Return _ => true
  | Raise _ => false
  end.

(** ** What is assumed of the native kernels *)

(** The kernels transform along the last axis and return an array with as
    many axes as their argument. *)
Definition keeps_rank {E} (kernel : _fftpack.handle -> ndarray E -> Z -> Z -> Z -> ndarray E) : Prop :=
  forall h a n nm overwrite_x, ndim (kernel h a n nm overwrite_x) = ndim a.

(** The kernels return an array of the shape of their argument. *)
Definition keeps_shape {E}
    (kernel : _fftpack.handle -> ndarray E -> Z -> Z -> Z -> ndarray E) : Prop :=
  forall h a n nm overwrite_x, shape (kernel h a n nm overwrite_x) = shape a.

(** [overwrite_x : If True the contents of x can be destroyed]: with the
    flag at 0 a kernel leaves its argument as it found it. *)
Definition honours_overwrite {E}
    (kernel_arg_after : _fftpack.handle -> ndarray E -> Z -> Z -> Z -> ndarray E) : Prop :=
  forall h a n nm, kernel_arg_after h a n nm 0%Z = a.

(** ** The orthonormal mode, as the docstring of [dct2] gives it *)

(** Lines 65-68: with [norm='ortho'], [y[k]] is multiplied by
    [f = sqrt(1/(4*N))] if [k = 0] and by [f = sqrt(1/(2*N))] otherwise. *)
Definition ortho_scale (N k : nat) : R :=
  if (k =? 0)%nat then sqrt (1 / (4 * INR N)) else sqrt (1 / (2 * INR N)).

(** Lines 61-68: the matrix of coefficients [O] of the orthonormal
    variant-2 transform, [y[k] = sum_n O[k][n] * x[n]]. *)
Definition ortho_matrix (N k n : nat) : R :=
  (ortho_scale N k
   * (2 * cos (PI * INR k * (2 * INR n + 1) / (2 * INR N))))%R.

(** A kernel that returns its argument. *)
Definition identity_kernel {E} (h : _fftpack.handle) (a : ndarray E)
    (n nm overwrite_x : Z) : ndarray E := a.

(** ** The package initializer, [scipy/__init__.py] *)

(** [l.remove(x)]: the first occurrence of [x] is dropped; a [ValueError]
    when there is none. *)
Fixpoint list_remove (l : list string) (x : string) : result (list string) :=
  match l with
  | [] => Raise (Exc ValueError "list.remove(x): x not in list" None)
  | y :: l' =>
      if String.eqb y x then Return l'
      else match list_remove l' x with
           | Return r => Return (y :: r)
           | Raise e => Raise e
           end
  end.

(** Lines 68, 114, 115 and 121: the list [__all__] of the package, built
    from [numpy]'s own list of exported names ([_num.__all__]).  The starred
    imports of lines 108 and 111 are taken not to rebind [__all__] or
    [_num]. *)
Definition scipy_all (numpy_all : list string) : result (list string) :=
  let __all__ := ["test"%string] in
  let __all__ := __all__ ++ numpy_all in
  let __all__ := __all__ ++ ["randn"%string; "rand"%string; "fft"%string; "ifft"%string] in
  list_remove __all__ "linalg".

(** ** A kernel instance for running the dispatcher on concrete arrays *)

(** Integer elements and a kernel that keeps the shape of its argument:
    it stands for no routine in particular and only serves to evaluate the
    dispatcher on explicit inputs.  With a true [overwrite_x] it works in
    place. *)
Definition sample_kernel (h : _fftpack.handle) (a : ndarray Z)
    (n nm overwrite_x : Z) : ndarray Z :=
  {| dtype := dtype a;
     shape := shape a;
     data := map (fun e => (handle_variant h * e + nm)%Z) (data a) |}.

Definition sample_arg_after (h : _fftpack.handle) (a : ndarray Z)
    (n nm overwrite_x : Z) : ndarray Z :=
  if (overwrite_x =? 0)%Z then a else sample_kernel h a n nm overwrite_x.

Definition arange (t : scalar_type) (shp : list nat) : ndarray Z :=
  {| dtype := t; shape := shp; data := map Z.of_nat (seq 0 (size_of shp)) |}.

(** ** The transforms the kernels compute *)

(** Finite sums of reals: [f lo + ... + f (lo + len - 1)]. *)
Definition sigma (lo len : nat) (f : nat -> R) : R :=
  fold_right Rplus 0%R (map f (seq lo len)).

(** Modelled from the spec: the unnormalized variant-2 transform of the
    native kernels [_fftpack.ddct2] and [_fftpack.dct2], which are compiled
    code outside the Python sources.
    [y[k] = 2 * sum_(n=0..N-1) x[n] * cos(pi*k*(2n+1)/(2N))]. *)
Definition dct2_unnormalized (x : list R) : list R :=
  let N := length x in
  map (fun k =>
         2 * sigma 0 N (fun n =>
               nth n x 0 * cos (PI * INR k * (2 * INR n + 1) / (2 * INR N))))%R
      (seq 0 N).

(** Modelled from the spec: the unnormalized variant-3 transform of the
    native kernels [_fftpack.ddct3] and [_fftpack.dct3], which are compiled
    code outside the Python sources.
    [y[k] = x[0] + 2 * sum_(n=1..N-1) x[n] * cos(pi*(k+0.5)*n/N)]. *)
Definition dct3_unnormalized (x : list R) : list R :=
  let N := length x in
  map (fun k =>
         nth 0 x 0
         + 2 * sigma 1 (N - 1) (fun n =>
                 nth n x 0 * cos (PI * (INR k + / 2) * INR n / INR N)))%R
      (seq 0 N).

(** Modelled from the spec: what the kernels of variants 2 and 3 return
    for a one-dimensional sequence when no normalisation is asked for
    ([nm = 0]); the native kernels are not among the Python sources. *)
Definition computes_unnormalized
    (kernel : _fftpack.handle -> ndarray R -> Z -> Z -> Z -> ndarray R) : Prop :=
  forall h a N overwrite_x,
    shape a = [N] -> length (data a) = N ->
    (handle_variant h = 2%Z ->
     kernel h a (Z.of_nat N) 0%Z overwrite_x
     = {| dtype := dtype a; shape := [N];
          data := dct2_unnormalized (data a) |}) /\
    (handle_variant h = 3%Z ->
     kernel h a (Z.of_nat N) 0%Z overwrite_x
     = {| dtype := dtype a; shape := [N];
          data := dct3_unnormalized (data a) |}).

(** The rows of an array along its last axis. *)
Fixpoint rows {A} (count n : nat) (l : list A) : list (list A) :=
  match count with
  | O => []
  | S c => firstn n l :: rows c n (skipn n l)
  end.

Definition along_last_axis (f : list R -> list R) (a : ndarray R) : ndarray R :=
  let n := last (shape a) 0%nat in
  {| dtype := dtype a;
     shape := shape a;
     data := concat (map f (rows (size_of (shape a) / n) n (data a))) |}.

(** A kernel over the reals that applies these two transforms along the
    last axis.  The spec gives no formula for variant 1, and the
    orthonormal modes are not needed below: there the argument is returned
    as it is. *)
Definition formula_kernel (h : _fftpack.handle) (a : ndarray R)
    (n nm overwrite_x : Z) : ndarray R :=
  if (nm =? 0)%Z then
    if (handle_variant h =? 2)%Z then along_last_axis dct2_unnormalized a
    else if (handle_variant h =? 3)%Z then along_last_axis dct3_unnormalized a
    else a
  else a.

Unset Implicit Arguments.

(** ** Properties of the dispatcher's building blocks *)

Lemma normalize_index_bound len i k :
  normalize_index len i = Some k -> (k < len)%nat.
Proof.
  unfold normalize_index.
  destruct (i <? 0)%Z eqn:Hneg;
    destruct ((0 <=? _) && (_ <? _))%Z eqn:Hin; try discriminate;
    intros [= <-]; apply andb_true_iff in Hin as [H0 H1];
    apply Z.leb_le in H0; apply Z.ltb_lt in H1; lia.
Qed.

Lemma normalize_index_last len :
  (0 < len)%nat -> normalize_index len (-1) = Some (len - 1)%nat.
Proof.
  intros Hlen. unfold normalize_index.
  change (-1 <? 0)%Z with true. cbv zeta iota.
  assert (H0 : (0 <=? -1 + Z.of_nat len)%Z = true) by (apply Z.leb_le; lia).
  assert (H1 : (-1 + Z.of_nat len <? Z.of_nat len)%Z = true) by (apply Z.ltb_lt; lia).
  rewrite H0, H1. cbn [andb]. f_equal. lia.
Qed.

Lemma tuple_getitem_Return t i d :
  tuple_getitem t i = Return d ->
  exists k, normalize_index (length t) i = Some k /\ nth_error t k = Some d.
Proof.
  unfold tuple_getitem.
  destruct (normalize_index (length t) i) as [k|]; [|discriminate].
  destruct (nth_error t k) as [d'|] eqn:Hnth; [|discriminate].
  intros [= <-]. now exists k.
Qed.

Lemma tuple_getitem_in_range t i k :
  normalize_index (length t) i = Some k ->
  exists d, tuple_getitem t i = Return d.
Proof.
  intros Hk. unfold tuple_getitem. rewrite Hk.
  destruct (nth_error t k) as [d|] eqn:Hnth; [now exists d|].
  apply nth_error_None in Hnth. apply normalize_index_bound in Hk. lia.
Qed.

Lemma tuple_getitem_Raise t i e :
  tuple_getitem t i = Raise e ->
  e = Exc IndexError "tuple index out of range" None.
Proof.
  unfold tuple_getitem.
  destruct (normalize_index (length t) i) as [k|]; [|now intros [= <-]].
  destruct (nth_error t k); [discriminate|now intros [= <-]].
Qed.

Lemma select_kernel_Return t type f :
  select_kernel t type = Return f ->
  (t = float64 /\ handle_precision f = double_precision \/
   t = float32 /\ handle_precision f = single_precision) /\
  handle_variant f = type.
Proof.
  unfold select_kernel.
  destruct t; simpl;
    destruct (type =? 1)%Z eqn:H1; try (apply Z.eqb_eq in H1);
    destruct (type =? 2)%Z eqn:H2; try (apply Z.eqb_eq in H2);
    destruct (type =? 3)%Z eqn:H3; try (apply Z.eqb_eq in H3);
    try discriminate; intros [= <-]; subst; simpl; auto.
Qed.

Lemma select_kernel_Raise t type e :
  select_kernel t type = Raise e ->
  e = Exc ValueError "Type %d not understood" (Some (PyInt type)) \/
  e = Exc ValueError "dtype %s not supported" (Some (PyDtype t)).
Proof.
  unfold select_kernel.
  destruct (scalar_type_eqb t double), (scalar_type_eqb t float32),
    (type =? 1)%Z, (type =? 2)%Z, (type =? 3)%Z;
    try discriminate; intros [= <-]; auto.
Qed.

Lemma swapaxes_Raise {E} (a : ndarray E) axis1 axis2 e :
  swapaxes a axis1 axis2 = Raise e ->
  e = Exc ValueError "bad axis1 argument to swapaxes" None \/
  e = Exc ValueError "bad axis2 argument to swapaxes" None.
Proof.
  unfold swapaxes.
  destruct (normalize_index (ndim a) axis1);
    [destruct (normalize_index (ndim a) axis2)|];
    try discriminate; intros [= <-]; auto.
Qed.

Lemma normalize_flag_Raise normalize e :
  normalize_flag normalize = Raise e ->
  truthy normalize = true /\ eq_str normalize "ortho" = false /\
  e = Exc ValueError "Unknown normalize mode %s" (Some normalize).
Proof.
  unfold normalize_flag.
  destruct (truthy normalize); [|discriminate].
  destruct (eq_str normalize "ortho"); [discriminate|].
  now intros [= <-].
Qed.

Lemma normalize_flag_falsy normalize :
  truthy normalize = false -> normalize_flag normalize = Return 0%Z.
Proof. intros H. unfold normalize_flag. now rewrite H. Qed.

Section Dispatch.

Variable E : Type.
Variable kernel : _fftpack.handle -> ndarray E -> Z -> Z -> Z -> ndarray E.

Implicit Types (x : ndarray E) (type axis overwrite_x : Z) (n : option Z)
  (normalize : pyval).

Lemma _dct_not_real x type n axis overwrite_x normalize :
  isrealobj x = false ->
  _dct kernel x type n axis overwrite_x normalize
  = (Raise (Exc TypeError "1st argument must be real sequence" None), []).
Proof. intros H. unfold _dct, asarray. now rewrite H. Qed.

Lemma _dct_length_supplied x type k axis overwrite_x normalize :
  isrealobj x = true ->
  _dct kernel x type (Some k) axis overwrite_x normalize
  = (Raise (NotImplemented_call "Padding/truncating not yet implemented"), []).
Proof. intros H. unfold _dct, asarray. now rewrite H. Qed.

Lemma _dct_bad_axis x type axis overwrite_x normalize e :
  isrealobj x = true ->
  tuple_getitem (shape x) axis = Raise e ->
  _dct kernel x type None axis overwrite_x normalize = (Raise e, []).
Proof. intros H Ha. unfold _dct, asarray. now rewrite H, Ha. Qed.

Lemma _dct_no_kernel x type axis overwrite_x normalize d e :
  isrealobj x = true ->
  tuple_getitem (shape x) axis = Return d ->
  select_kernel (dtype x) type = Raise e ->
  _dct kernel x type None axis overwrite_x normalize = (Raise e, []).
Proof. intros H Ha Hf. unfold _dct, asarray. now rewrite H, Ha, Hf. Qed.

Lemma _dct_bad_normalize x type axis overwrite_x normalize d f e :
  isrealobj x = true ->
  tuple_getitem (shape x) axis = Return d ->
  select_kernel (dtype x) type = Return f ->
  normalize_flag normalize = Raise e ->
  _dct kernel x type None axis overwrite_x normalize = (Raise e, []).
Proof. intros H Ha Hf Hn. unfold _dct, asarray. now rewrite H, Ha, Hf, Hn. Qed.

Lemma _dct_validated x type axis overwrite_x normalize d f nm :
  isrealobj x = true ->
  tuple_getitem (shape x) axis = Return d ->
  select_kernel (dtype x) type = Return f ->
  normalize_flag normalize = Return nm ->
  _dct kernel x type None axis overwrite_x normalize
  = if is_last x axis then
      invoke kernel f Whole x (Z.of_nat d) nm overwrite_x
    else
      tmp <- lift (swapaxes x axis (-1)) ;;
      tmp <- invoke kernel f (Swapped axis) tmp (Z.of_nat d) nm overwrite_x ;;
      lift (swapaxes tmp axis (-1)).
Proof.
  intros H Ha Hf Hn. unfold _dct, asarray.
  rewrite H, Ha, Hf, Hn. simpl.
  destruct (is_last x axis); [reflexivity|].
  destruct (swapaxes x axis (-1)) as [xs|e]; simpl; [|reflexivity].
  destruct (swapaxes _ axis (-1)); reflexivity.
Qed.

End Dispatch.

(** ** Axis swapping *)

Section Swapaxes.

Lemma nth_map_seq {A} (f : nat -> A) len k d :
  (k < len)%nat -> nth k (map f (seq 0 len)) d = f k.
Proof.
  intros Hk. apply nth_error_nth.
  rewrite nth_error_map, nth_error_seq.
  apply Nat.ltb_lt in Hk. now rewrite Hk.
Qed.

Lemma transp_involutive i j k : transp i j (transp i j k) = k.
Proof.
  unfold transp.
  destruct (k =? i)%nat eqn:Hki; [apply Nat.eqb_eq in Hki|apply Nat.eqb_neq in Hki].
  - subst. rewrite Nat.eqb_refl.
    destruct (j =? i)%nat eqn:Hji; [now apply Nat.eqb_eq in Hji|reflexivity].
  - destruct (k =? j)%nat eqn:Hkj; [apply Nat.eqb_eq in Hkj|apply Nat.eqb_neq in Hkj].
    + subst. now rewrite Nat.eqb_refl.
    + apply Nat.eqb_neq in Hki, Hkj. now rewrite Hki, Hkj.
Qed.

Lemma transp_lt i j k len :
  (i < len)%nat -> (j < len)%nat -> (k < len)%nat -> (transp i j k < len)%nat.
Proof.
  intros Hi Hj Hk. unfold transp.
  destruct (k =? i)%nat; [assumption|]. now destruct (k =? j)%nat.
Qed.

Lemma length_swap_entries i j l : length (swap_entries i j l) = length l.
Proof. unfold swap_entries. now rewrite length_map, length_seq. Qed.

Lemma nth_swap_entries i j l k :
  (k < length l)%nat ->
  nth k (swap_entries i j l) 0%nat = nth (transp i j k) l 0%nat.
Proof. intros Hk. unfold swap_entries. now rewrite nth_map_seq. Qed.

Lemma swap_entries_involutive i j l :
  (i < length l)%nat -> (j < length l)%nat ->
  swap_entries i j (swap_entries i j l) = l.
Proof.
  intros Hi Hj.
  apply nth_ext with (d := 0%nat) (d' := 0%nat).
  - now rewrite !length_swap_entries.
  - intros k Hk. rewrite !length_swap_entries in Hk.
    rewrite nth_swap_entries by now rewrite length_swap_entries.
    rewrite nth_swap_entries by now apply transp_lt.
    now rewrite transp_involutive.
Qed.

Lemma in_bounds_nth shp idx :
  in_bounds shp idx <->
  length idx = length shp /\
  forall k, (k < length shp)%nat -> (nth k idx 0 < nth k shp 0)%nat.
Proof.
  unfold in_bounds. split.
  - induction 1 as [|i d idx shp Hid _ [IHlen IHnth]]; simpl.
    + split; [reflexivity|]. intros k Hk. lia.
    + split; [now rewrite IHlen|].
      intros [|k] Hk; [assumption|]. apply IHnth. lia.
  - revert shp. induction idx as [|i idx IH]; intros [|d shp] [Hlen Hnth];
      simpl in Hlen; try discriminate; constructor.
    + apply (Hnth 0%nat). simpl. lia.
    + apply IH. split; [now injection Hlen|].
      intros k Hk. apply (Hnth (S k)). simpl. lia.
Qed.

Lemma in_bounds_swap i j shp idx :
  (i < length shp)%nat -> (j < length shp)%nat ->
  in_bounds shp idx ->
  in_bounds (swap_entries i j shp) (swap_entries i j idx).
Proof.
  intros Hi Hj Hb. apply in_bounds_nth in Hb as [Hlen Hnth].
  apply in_bounds_nth. split.
  - now rewrite !length_swap_entries.
  - intros k Hk. rewrite length_swap_entries in Hk.
    rewrite !nth_swap_entries by lia.
    apply Hnth. now apply transp_lt.
Qed.

Lemma size_of_cons d ds : size_of (d :: ds) = (d * size_of ds)%nat.
Proof. reflexivity. Qed.

Lemma unravel_in_bounds shp p :
  (p < size_of shp)%nat -> in_bounds shp (unravel shp p).
Proof.
  unfold in_bounds. revert p.
  induction shp as [|d ds IH]; intros p Hp; simpl; constructor.
  - rewrite size_of_cons in Hp.
    apply Nat.Div0.div_lt_upper_bound. lia.
  - apply IH. apply Nat.mod_upper_bound.
    rewrite size_of_cons in Hp. intros H0. rewrite H0 in Hp. lia.
Qed.

Lemma ravel_unravel shp p :
  (p < size_of shp)%nat -> ravel shp (unravel shp p) = p.
Proof.
  revert p. induction shp as [|d ds IH]; intros p Hp; simpl.
  - simpl in Hp. lia.
  - rewrite size_of_cons in Hp.
    assert (Hs : size_of ds <> 0%nat) by (intros H0; rewrite H0 in Hp; lia).
    rewrite IH by now apply Nat.mod_upper_bound.
    pose proof (Nat.div_mod_eq p (size_of ds)). lia.
Qed.

Lemma ravel_lt shp idx :
  in_bounds shp idx -> (ravel shp idx < size_of shp)%nat.
Proof.
  unfold in_bounds. induction 1 as [|i d idx ds Hid _ IH]; simpl.
  - lia.
  - fold (size_of ds). nia.
Qed.

Lemma unravel_ravel shp idx :
  in_bounds shp idx -> unravel shp (ravel shp idx) = idx.
Proof.
  intros Hb. pose proof Hb as Hb'. unfold in_bounds in Hb.
  induction Hb as [|i d idx ds Hid Hrest IH]; simpl; [reflexivity|].
  pose proof (ravel_lt _ _ Hrest) as Hr.
  assert (Hs : size_of ds <> 0%nat) by lia.
  assert (Hq : ((i * size_of ds + ravel ds idx) / size_of ds = i)%nat).
  { rewrite Nat.div_add_l by assumption.
    rewrite Nat.div_small by assumption. lia. }
  assert (Hm : ((i * size_of ds + ravel ds idx) mod size_of ds
                = ravel ds idx)%nat).
  { rewrite (Nat.add_comm (i * size_of ds)), Nat.Div0.mod_add.
    now apply Nat.mod_small. }
  rewrite Hq, Hm. f_equal. now apply IH.
Qed.

End Swapaxes.

Section SwapaxesData.

Variable E : Type.

Implicit Types (l : list E) (ps : list nat) (a b : ndarray E).

Lemma gather_Some ps l :
  Forall (fun p => (p < length l)%nat) ps ->
  map Some (gather ps l) = map (nth_error l) ps.
Proof.
  induction 1 as [|p ps Hp _ IH]; [reflexivity|].
  unfold gather in *. simpl.
  destruct (nth_error l p) as [e|] eqn:Hnth.
  - simpl. now rewrite IH.
  - apply nth_error_None in Hnth. lia.
Qed.

Lemma length_gather ps l :
  Forall (fun p => (p < length l)%nat) ps -> length (gather ps l) = length ps.
Proof.
  intros H. apply gather_Some in H.
  apply (f_equal (@length _)) in H. now rewrite !length_map in H.
Qed.

Lemma map_nth_error_seq l : map (nth_error l) (seq 0 (length l)) = map Some l.
Proof.
  induction l as [|e l IH]; [reflexivity|].
  simpl. f_equal. rewrite <- seq_shift, map_map. exact IH.
Qed.

Lemma map_Some_inj l l' : map Some l = map Some l' -> l = l'.
Proof.
  revert l'. induction l as [|e l IH]; intros [|e' l'] H;
    try discriminate; [reflexivity|].
  injection H as -> H. f_equal. now apply IH.
Qed.

Lemma nth_error_gather_seq (f : nat -> nat) len l q :
  (forall p, (p < len)%nat -> (f p < length l)%nat) ->
  (q < len)%nat ->
  nth_error (gather (map f (seq 0 len)) l) q = nth_error l (f q).
Proof.
  intros Hf Hq.
  assert (Hall : Forall (fun p => (p < length l)%nat) (map f (seq 0 len))).
  { apply Forall_forall. intros p Hin. apply in_map_iff in Hin as [p' [<- Hin]].
    apply in_seq in Hin. apply Hf. lia. }
  apply gather_Some in Hall.
  apply (f_equal (fun m => nth_error m q)) in Hall.
  rewrite !nth_error_map, nth_error_seq in Hall.
  apply Nat.ltb_lt in Hq. rewrite Hq in Hall. simpl in Hall.
  destruct (nth_error (gather _ l) q); simpl in Hall; [now injection Hall|discriminate].
Qed.

Lemma swapaxes_Return a axis1 axis2 b :
  swapaxes a axis1 axis2 = Return b ->
  exists i j,
    normalize_index (ndim a) axis1 = Some i /\
    normalize_index (ndim a) axis2 = Some j /\
    dtype b = dtype a /\
    shape b = swap_entries i j (shape a) /\
    data b = gather (map (swapped_source (shape a) i j)
                         (seq 0 (size_of (swap_entries i j (shape a)))))
                    (data a).
Proof.
  unfold swapaxes.
  destruct (normalize_index (ndim a) axis1) as [i|]; [|discriminate].
  destruct (normalize_index (ndim a) axis2) as [j|]; [|discriminate].
  intros [= <-]. exists i, j. simpl. auto.
Qed.

Lemma swapaxes_in_range a axis1 axis2 i j :
  normalize_index (ndim a) axis1 = Some i ->
  normalize_index (ndim a) axis2 = Some j ->
  exists b, swapaxes a axis1 axis2 = Return b.
Proof. intros Hi Hj. unfold swapaxes. rewrite Hi, Hj. eauto. Qed.

Lemma swapaxes_ndim a axis1 axis2 b :
  swapaxes a axis1 axis2 = Return b -> ndim b = ndim a.
Proof.
  intros H. apply swapaxes_Return in H as (i & j & _ & _ & _ & Hs & _).
  unfold ndim. now rewrite Hs, length_swap_entries.
Qed.

Lemma swapped_source_lt shp i j p :
  (i < length shp)%nat -> (j < length shp)%nat ->
  (p < size_of (swap_entries i j shp))%nat ->
  (swapped_source shp i j p < size_of shp)%nat.
Proof.
  intros Hi Hj Hp. unfold swapped_source. apply ravel_lt.
  rewrite <- (swap_entries_involutive i j shp) at 1 by assumption.
  apply in_bounds_swap; rewrite ?length_swap_entries; try assumption.
  now apply unravel_in_bounds.
Qed.

Lemma swapaxes_well_formed a axis1 axis2 b :
  well_formed a -> swapaxes a axis1 axis2 = Return b -> well_formed b.
Proof.
  unfold well_formed. intros Hwf H.
  apply swapaxes_Return in H as (i & j & Hi & Hj & _ & Hs & Hd).
  apply normalize_index_bound in Hi, Hj. unfold ndim in Hi, Hj.
  rewrite Hd, Hs, length_gather; [now rewrite length_map, length_seq|].
  apply Forall_forall. intros p Hin. apply in_map_iff in Hin as [p' [<- Hin]].
  apply in_seq in Hin. rewrite Hwf. apply swapped_source_lt; lia.
Qed.

(** Swapping the same two axes twice gives the array back. *)
Lemma swapaxes_involutive a axis1 axis2 b :
  well_formed a ->
  swapaxes a axis1 axis2 = Return b ->
  swapaxes b axis1 axis2 = Return a.
Proof.
  intros Hwf H. pose proof (swapaxes_ndim _ _ _ _ H) as Hnd.
  pose proof (swapaxes_well_formed _ _ _ _ Hwf H) as Hwfb.
  apply swapaxes_Return in H as (i & j & Hi & Hj & Ht & Hs & Hd).
  unfold swapaxes. rewrite Hnd, Hi, Hj.
  apply normalize_index_bound in Hi, Hj. unfold ndim in Hi, Hj.
  unfold well_formed in Hwf, Hwfb.
  destruct a as [t shp dat]. simpl in *.
  rewrite Ht, Hs, swap_entries_involutive by assumption.
  f_equal. f_equal.
  apply map_Some_inj. rewrite <- (map_nth_error_seq dat), Hwf.
  rewrite gather_Some.
  - rewrite map_map. apply map_ext_in. intros p Hp. apply in_seq in Hp.
    assert (Hsrc : (swapped_source (swap_entries i j shp) i j p
                    < size_of (swap_entries i j shp))%nat).
    { apply swapped_source_lt; rewrite ?length_swap_entries,
        ?swap_entries_involutive; lia. }
    rewrite Hd, nth_error_gather_seq; [|intros q Hq; rewrite Hwf;
      apply swapped_source_lt; assumption|assumption].
    f_equal. unfold swapped_source.
    rewrite swap_entries_involutive by assumption.
    rewrite unravel_ravel.
    + rewrite swap_entries_involutive.
      * apply ravel_unravel. lia.
      * pose proof (unravel_in_bounds shp p ltac:(lia)) as Hb.
        apply in_bounds_nth in Hb as [Hlen _]. lia.
      * pose proof (unravel_in_bounds shp p ltac:(lia)) as Hb.
        apply in_bounds_nth in Hb as [Hlen _]. lia.
    + apply in_bounds_swap; try assumption.
      apply unravel_in_bounds. lia.
  - apply Forall_forall. intros p Hin. apply in_map_iff in Hin as [p' [<- Hin]].
    apply in_seq in Hin. rewrite Hwfb, Hs.
    apply swapped_source_lt; rewrite ?length_swap_entries,
      ?swap_entries_involutive; lia.
Qed.

End SwapaxesData.

(** ** The dispatcher, case by case *)

Section Outcomes.

Variable E : Type.
Variable kernel : _fftpack.handle -> ndarray E -> Z -> Z -> Z -> ndarray E.

Implicit Types (x : ndarray E) (type axis overwrite_x : Z) (n : option Z)
  (normalize : pyval).

Lemma _dct_direct x type axis overwrite_x normalize d f nm :
  isrealobj x = true ->
  tuple_getitem (shape x) axis = Return d ->
  select_kernel (dtype x) type = Return f ->
  normalize_flag normalize = Return nm ->
  is_last x axis = true ->
  _dct kernel x type None axis overwrite_x normalize
  = (Return (kernel f x (Z.of_nat d) nm overwrite_x),
     [call_of f Whole x (Z.of_nat d) nm overwrite_x]).
Proof.
  intros H Ha Hf Hn Hl.
  rewrite (_dct_validated E kernel x type axis overwrite_x normalize d f nm)
    by assumption.
  now rewrite Hl.
Qed.

Lemma swapaxes_last_in_range x axis d :
  tuple_getitem (shape x) axis = Return d ->
  exists i xs,
    normalize_index (ndim x) axis = Some i /\
    normalize_index (ndim x) (-1) = Some (ndim x - 1)%nat /\
    nth_error (shape x) i = Some d /\
    swapaxes x axis (-1) = Return xs.
Proof.
  intros Ha. apply tuple_getitem_Return in Ha as (i & Hi & Hnth).
  pose proof (normalize_index_bound _ _ _ Hi) as Hlt.
  assert (Hlast : normalize_index (ndim x) (-1) = Some (ndim x - 1)%nat)
    by (apply normalize_index_last; unfold ndim; lia).
  destruct (swapaxes_in_range E x axis (-1) i (ndim x - 1) Hi Hlast) as [xs Hxs].
  now exists i, xs.
Qed.

Lemma _dct_swapped x type axis overwrite_x normalize d f nm :
  isrealobj x = true ->
  tuple_getitem (shape x) axis = Return d ->
  select_kernel (dtype x) type = Return f ->
  normalize_flag normalize = Return nm ->
  is_last x axis = false ->
  exists xs,
    swapaxes x axis (-1) = Return xs /\
    _dct kernel x type None axis overwrite_x normalize
    = (swapaxes (kernel f xs (Z.of_nat d) nm overwrite_x) axis (-1),
       [call_of f (Swapped axis) xs (Z.of_nat d) nm overwrite_x]).
Proof.
  intros H Ha Hf Hn Hl.
  destruct (swapaxes_last_in_range x axis d Ha) as (i & xs & _ & _ & _ & Hxs).
  exists xs. split; [assumption|].
  rewrite (_dct_validated E kernel x type axis overwrite_x normalize d f nm)
    by assumption.
  rewrite Hl, Hxs. simpl.
  now destruct (swapaxes (kernel f xs (Z.of_nat d) nm overwrite_x) axis (-1)).
Qed.

Lemma _dct_outcome x type n axis overwrite_x normalize :
  outcome kernel x type n axis overwrite_x normalize.
Proof.
  destruct (isrealobj x) eqn:Hreal.
  2: { apply NotReal; [assumption|]. now apply _dct_not_real. }
  destruct n as [k|].
  { apply LengthGiven with (k := k); try easy.
    now apply _dct_length_supplied. }
  destruct (tuple_getitem (shape x) axis) as [d|e] eqn:Ha.
  2: { pose proof (tuple_getitem_Raise _ _ _ Ha) as ->.
       apply BadAxis; try easy. now apply _dct_bad_axis. }
  destruct (select_kernel (dtype x) type) as [f|e] eqn:Hf.
  2: { apply NoKernel with (d := d) (e := e); try easy.
       now apply _dct_no_kernel with (d := d). }
  destruct (normalize_flag normalize) as [nm|e] eqn:Hn.
  2: { destruct (normalize_flag_Raise _ _ Hn) as (Ht & Ho & ->).
       apply BadNormalize with (d := d) (f := f); try easy.
       now apply _dct_bad_normalize with (d := d) (f := f). }
  destruct (is_last x axis) eqn:Hl.
  - apply Direct with (d := d) (f := f) (nm := nm); try easy.
    now apply _dct_direct.
  - destruct (_dct_swapped x type axis overwrite_x normalize d f nm)
      as (xs & Hxs & Hrun); try assumption.
    now apply ThroughSwap with (d := d) (f := f) (nm := nm) (xs := xs).
Qed.

End Outcomes.

(** ** The swapped array seen from the dispatcher *)

Lemma transp_right i j : transp i j j = i.
Proof.
  unfold transp. destruct (j =? i)%nat eqn:Hji.
  - now apply Nat.eqb_eq in Hji.
  - now rewrite Nat.eqb_refl.
Qed.

Lemma tuple_getitem_swapped shp axis i :
  normalize_index (length shp) axis = Some i ->
  tuple_getitem (swap_entries i (length shp - 1) shp) (-1)
  = tuple_getitem shp axis.
Proof.
  intros Hi. pose proof (normalize_index_bound _ _ _ Hi) as Hlt.
  unfold tuple_getitem.
  rewrite length_swap_entries, normalize_index_last, Hi by lia.
  rewrite (nth_error_nth' _ 0%nat)
    by (rewrite length_swap_entries; lia).
  rewrite nth_swap_entries, transp_right by lia.
  now rewrite (nth_error_nth' shp 0%nat) by lia.
Qed.

Lemma swapaxes_same_axes {E} (a : ndarray E) axis axis1 axis2 :
  normalize_index (ndim a) axis1 = normalize_index (ndim a) axis2 ->
  normalize_index (ndim a) axis1 <> None ->
  swapaxes a axis axis1 = swapaxes a axis axis2.
Proof.
  intros Heq Hsome. unfold swapaxes. rewrite <- Heq.
  destruct (normalize_index (ndim a) axis);
    destruct (normalize_index (ndim a) axis1); congruence.
Qed.

Lemma normalize_index_nonneg len (k : nat) :
  (k < len)%nat -> normalize_index len (Z.of_nat k) = Some k.
Proof.
  intros Hk. unfold normalize_index.
  assert (H0 : (Z.of_nat k <? 0)%Z = false) by (apply Z.ltb_ge; lia).
  assert (H1 : (0 <=? Z.of_nat k)%Z = true) by (apply Z.leb_le; lia).
  assert (H2 : (Z.of_nat k <? Z.of_nat len)%Z = true) by (apply Z.ltb_lt; lia).
  rewrite H0. cbv zeta. rewrite H1, H2. cbn [andb]. now rewrite Nat2Z.id.
Qed.


(** ** The claims about the dispatcher *)

Section Claims.

Variable E : Type.
Variable kernel : _fftpack.handle -> ndarray E -> Z -> Z -> Z -> ndarray E.
Variable kernel_arg_after : _fftpack.handle -> ndarray E -> Z -> Z -> Z -> ndarray E.

Implicit Types (x : ndarray E) (type axis overwrite_x : Z) (n : option Z)
  (normalize norm : pyval).

(** A call that omits the length never ends in the error of line 156. *)
Lemma length_omitted_no_padding_error x type axis overwrite_x normalize :
  value (_dct kernel x type None axis overwrite_x normalize)
  <> Raise padding_error.
Proof.
  destruct (_dct_outcome E kernel x type None axis overwrite_x normalize)
    as [_ Hr|k _ Hk _|_ _ _ Hr|d e _ _ _ Hf Hr|d f _ _ _ _ _ _ Hr
       |d f nm _ _ _ _ _ _ Hr|d f nm xs _ _ _ _ _ _ _ Hr];
    try discriminate Hk; rewrite Hr; unfold value; simpl; try discriminate.
  - apply select_kernel_Raise in Hf as [-> | ->]; discriminate.
  - destruct (swapaxes _ axis (-1)) as [y|e] eqn:Hs; [discriminate|].
    apply swapaxes_Raise in Hs as [-> | ->]; discriminate.
Qed.

(** C1 (amended).  On a real-valued input, a call that supplies the
    optional length fails at the padding/truncation guard of line 156
    whatever the length is - equal to the input's size along the transform
    axis or not - and no kernel is invoked; a call that omits the length
    never fails with that error. *)
Theorem C1_supplied_length_is_rejected x type axis overwrite_x normalize :
  isrealobj x = true ->
  (forall k, _dct kernel x type (Some k) axis overwrite_x normalize
             = (Raise padding_error, [])) /\
  value (_dct kernel x type None axis overwrite_x normalize)
  <> Raise padding_error.
Proof.
  intros Hreal. split.
  - intros k. now apply _dct_length_supplied.
  - apply length_omitted_no_padding_error.
Qed.

(** C2 (amended).  On a single- or double-precision input with a transform
    type among 1, 2, 3, the length omitted and the axis in range: a truthy
    [normalize] other than ["ortho"] ends in a [ValueError] before any
    kernel is invoked; ["ortho"] reaches the kernel with the flag 1; [None]
    and every other falsy value reach it with the flag 0; and in the last
    two cases the call returns, the kernels keeping the rank. *)
Theorem C2_normalize_modes x type axis overwrite_x normalize d :
  dtype x = float32 \/ dtype x = float64 ->
  type = 1%Z \/ type = 2%Z \/ type = 3%Z ->
  tuple_getitem (shape x) axis = Return d ->
  let r := _dct kernel x type None axis overwrite_x normalize in
  (truthy normalize = true -> eq_str normalize "ortho" = false ->
   r = (Raise (Exc ValueError "Unknown normalize mode %s" (Some normalize)), []))
  /\ (normalize = PyStr "ortho" ->
      exists c, calls r = [c] /\ k_nm c = 1%Z)
  /\ (truthy normalize = false ->
      exists c, calls r = [c] /\ k_nm c = 0%Z)
  /\ (keeps_rank kernel ->
      normalize = PyStr "ortho" \/ truthy normalize = false ->
      exists y, value r = Return y).
Proof.
  intros Hdt Hty Ha r.
  assert (Hreal : isrealobj x = true)
    by (unfold isrealobj, iscomplexobj; destruct Hdt as [-> | ->]; reflexivity).
  assert (Hsel : exists f, select_kernel (dtype x) type = Return f).
  { unfold select_kernel.
    destruct Hdt as [-> | ->], Hty as [-> | [-> | ->]]; simpl; eauto. }
  destruct Hsel as [f Hf].
  assert (Hreach : forall nm, normalize_flag normalize = Return nm ->
            (exists c, calls r = [c] /\ k_nm c = nm) /\
            (keeps_rank kernel -> exists y, value r = Return y)).
  { intros nm Hn. subst r. destruct (is_last x axis) eqn:Hl.
    - rewrite (_dct_direct E kernel x type axis overwrite_x normalize d f nm)
        by assumption.
      split; [eexists; split; reflexivity|]. intros _. eexists. reflexivity.
    - destruct (_dct_swapped E kernel x type axis overwrite_x normalize d f nm)
        as (xs & Hxs & ->); try assumption.
      split; [eexists; split; reflexivity|]. intros Hrank. unfold value. simpl.
      destruct (swapaxes_last_in_range E x axis d Ha)
        as (i & _ & Hi & Hlast & _ & _).
      pose proof (swapaxes_ndim E _ _ _ _ Hxs) as Hnd.
      apply swapaxes_in_range with (i := i) (j := (ndim x - 1)%nat);
        now rewrite Hrank, Hnd. }
  repeat split.
  - intros Ht Ho. subst r.
    apply _dct_bad_normalize with (d := d) (f := f); try assumption.
    unfold normalize_flag. now rewrite Ht, Ho.
  - intros ->. now apply Hreach.
  - intros Ht. apply Hreach. now apply normalize_flag_falsy.
  - intros Hrank [-> | Ht].
    + now apply (Hreach 1%Z).
    + apply (Hreach 0%Z); [now apply normalize_flag_falsy|assumption].
Qed.

Lemma _dct_last_axis x type n overwrite_x normalize :
  (0 < ndim x)%nat ->
  _dct kernel x type n (-1) overwrite_x normalize
  = _dct kernel x type n (Z.of_nat (ndim x) - 1) overwrite_x normalize.
Proof.
  intros Hnd. unfold _dct, asarray, is_last, tuple_getitem.
  fold (ndim x).
  replace (Z.of_nat (ndim x) - 1)%Z with (Z.of_nat (ndim x - 1)) by lia.
  rewrite normalize_index_last, normalize_index_nonneg by lia.
  rewrite !Z.eqb_refl, orb_true_r. reflexivity.
Qed.

(** The call along a non-last axis against the call along the last axis of
    the swapped input: both fail alike, or the second returns the kernel's
    result and the first returns it with the axes swapped back. *)
Lemma _dct_through_swap x type n axis overwrite_x normalize i :
  is_last x axis = false ->
  normalize_index (ndim x) axis = Some i ->
  exists xs,
    swapaxes x axis (-1) = Return xs /\
    ndim xs = ndim x /\
    Forall (fun c => k_arg c = xs)
      (calls (_dct kernel x type n axis overwrite_x normalize)) /\
    ((exists e,
        value (_dct kernel x type n axis overwrite_x normalize) = Raise e /\
        value (_dct kernel xs type n (-1) overwrite_x normalize) = Raise e) \/
     (exists f d nm,
        value (_dct kernel xs type n (-1) overwrite_x normalize)
        = Return (kernel f xs d nm overwrite_x) /\
        value (_dct kernel x type n axis overwrite_x normalize)
        = swapaxes (kernel f xs d nm overwrite_x) axis (-1))).
Proof.
  intros Hl Hi.
  pose proof (normalize_index_bound _ _ _ Hi) as Hlt.
  assert (Hlast : normalize_index (ndim x) (-1) = Some (ndim x - 1)%nat)
    by (apply normalize_index_last; lia).
  destruct (swapaxes_in_range E x axis (-1) i (ndim x - 1) Hi Hlast) as [xs Hxs].
  exists xs. split; [assumption|].
  pose proof (swapaxes_ndim E _ _ _ _ Hxs) as Hnd. split; [assumption|].
  destruct (swapaxes_Return E _ _ _ _ Hxs) as (i' & j' & Hi' & Hj' & Ht & Hs & _).
  rewrite Hi in Hi'. rewrite Hlast in Hj'.
  injection Hi' as <-. injection Hj' as <-.
  assert (Hreal : isrealobj xs = isrealobj x)
    by (unfold isrealobj, iscomplexobj; now rewrite Ht).
  assert (Hget : tuple_getitem (shape xs) (-1) = tuple_getitem (shape x) axis)
    by (rewrite Hs; now apply tuple_getitem_swapped).
  assert (Hlxs : is_last xs (-1) = true) by reflexivity.
  destruct (_dct_outcome E kernel x type n axis overwrite_x normalize)
    as [Hr0 Hr|k Hr0 Hn Hr|_ _ Ha Hr|d e Hr0 Hn Ha Hf Hr
       |d f Hr0 Hn Ha Hf Htr Ho Hr
       |d f nm _ _ _ _ _ Hl' _|d f nm xs' Hr0 Hn Ha Hf Hnm _ Hxs' Hr];
    try congruence; rewrite Hr; unfold value, calls; simpl.
  - split; [constructor|]. left. eexists. split; [reflexivity|].
    rewrite _dct_not_real by congruence. reflexivity.
  - split; [constructor|]. left. eexists. split; [reflexivity|].
    subst n. rewrite _dct_length_supplied by congruence. reflexivity.
  - destruct (tuple_getitem_in_range (shape x) axis i Hi) as [d Hd]. congruence.
  - split; [constructor|]. left. eexists. split; [reflexivity|].
    subst n. rewrite _dct_no_kernel with (d := d) (e := e);
      first [reflexivity | congruence].
  - split; [constructor|]. left. eexists. split; [reflexivity|].
    subst n.
    rewrite _dct_bad_normalize with (d := d) (f := f)
      (e := Exc ValueError "Unknown normalize mode %s" (Some normalize));
      first [reflexivity | congruence | idtac].
    unfold normalize_flag. now rewrite Htr, Ho.
  - assert (xs' = xs) as -> by congruence.
    split; [repeat constructor|]. right. exists f, (Z.of_nat d), nm.
    split; [|reflexivity]. subst n.
    rewrite _dct_direct with (d := d) (f := f) (nm := nm);
      first [reflexivity | congruence].
Qed.

(** A call that passes validation does reach the kernel: on the input
    itself when the transform axis is the last one, otherwise on the input
    with the two axes swapped, exactly as the call along the last axis of
    the swapped input does. *)
Lemma _dct_reaches_kernel x type axis overwrite_x normalize d f nm :
  isrealobj x = true ->
  tuple_getitem (shape x) axis = Return d ->
  select_kernel (dtype x) type = Return f ->
  normalize_flag normalize = Return nm ->
  if is_last x axis then
    _dct kernel x type None axis overwrite_x normalize
    = (Return (kernel f x (Z.of_nat d) nm overwrite_x),
       [call_of f Whole x (Z.of_nat d) nm overwrite_x])
  else
    exists xs,
      swapaxes x axis (-1) = Return xs /\
      _dct kernel xs type None (-1) overwrite_x normalize
      = (Return (kernel f xs (Z.of_nat d) nm overwrite_x),
         [call_of f Whole xs (Z.of_nat d) nm overwrite_x]) /\
      _dct kernel x type None axis overwrite_x normalize
      = (swapaxes (kernel f xs (Z.of_nat d) nm overwrite_x) axis (-1),
         [call_of f (Swapped axis) xs (Z.of_nat d) nm overwrite_x]) /\
      (keeps_rank kernel ->
       exists y,
         swapaxes (kernel f xs (Z.of_nat d) nm overwrite_x) axis (-1)
         = Return y).
Proof.
  intros Hreal Ha Hf Hnm.
  destruct (is_last x axis) eqn:Hl; [now apply _dct_direct|].
  destruct (_dct_swapped E kernel x type axis overwrite_x normalize d f nm)
    as (xs & Hxs & Hrun); try assumption.
  exists xs. split; [assumption|].
  destruct (swapaxes_last_in_range E x axis d Ha)
    as (i & _ & Hi & Hlast & _ & _).
  pose proof (swapaxes_ndim E _ _ _ _ Hxs) as Hnd.
  destruct (swapaxes_Return E _ _ _ _ Hxs) as (i' & j' & Hi' & Hj' & Ht & Hs & _).
  rewrite Hi in Hi'. rewrite Hlast in Hj'.
  injection Hi' as <-. injection Hj' as <-.
  split; [|split; [assumption|]].
  - apply _dct_direct; try reflexivity.
    + unfold isrealobj, iscomplexobj in *. now rewrite Ht.
    + rewrite Hs. unfold ndim.
      now rewrite (tuple_getitem_swapped (shape x) axis i Hi).
    + now rewrite Ht.
    + assumption.
  - intros Hrank.
    apply swapaxes_in_range with (i := i) (j := (ndim x - 1)%nat);
      now rewrite Hrank, Hnd.
Qed.

(** C3.  A call that passes validation invokes the kernel once: when the
    transform axis is the last one ([-1] or [ndim - 1]) on the input
    itself, returning what the kernel returned; for any other axis on the
    input with that axis and the last one swapped - the very invocation the
    call along the last axis of the swapped input makes - returning the
    kernel's result with the two axes swapped back.  A call along the last
    axis that returns has made just that one invocation, and for any other
    axis in range the call gives what the call along the last axis of the
    swapped input gives, swapped back, failures included.  For a
    three-dimensional input and axis 0 this reads: swap axes 0 and 2,
    transform along axis 2, swap back (the kernels keeping the rank). *)
Theorem C3_axis_handling x type n axis overwrite_x normalize :
  (forall d f nm,
     isrealobj x = true ->
     tuple_getitem (shape x) axis = Return d ->
     select_kernel (dtype x) type = Return f ->
     normalize_flag normalize = Return nm ->
     if is_last x axis then
       _dct kernel x type None axis overwrite_x normalize
       = (Return (kernel f x (Z.of_nat d) nm overwrite_x),
          [call_of f Whole x (Z.of_nat d) nm overwrite_x])
     else
       exists xs,
         swapaxes x axis (-1) = Return xs /\
         _dct kernel xs type None (-1) overwrite_x normalize
         = (Return (kernel f xs (Z.of_nat d) nm overwrite_x),
            [call_of f Whole xs (Z.of_nat d) nm overwrite_x]) /\
         _dct kernel x type None axis overwrite_x normalize
         = (swapaxes (kernel f xs (Z.of_nat d) nm overwrite_x) axis (-1),
            [call_of f (Swapped axis) xs (Z.of_nat d) nm overwrite_x]) /\
         (keeps_rank kernel ->
          exists y,
            swapaxes (kernel f xs (Z.of_nat d) nm overwrite_x) axis (-1)
            = Return y))
  /\
  (is_last x axis = true ->
   forall y log,
     _dct kernel x type n axis overwrite_x normalize = (Return y, log) ->
     exists c, log = [c] /\ k_view c = Whole /\ k_arg c = x /\
               y = kernel (k_fn c) x (k_n c) (k_nm c) overwrite_x)
  /\
  (is_last x axis = false ->
   forall i, normalize_index (ndim x) axis = Some i ->
   exists xs,
     swapaxes x axis (-1) = Return xs /\
     Forall (fun c => k_arg c = xs)
       (calls (_dct kernel x type n axis overwrite_x normalize)) /\
     value (_dct kernel x type n axis overwrite_x normalize)
     = match value (_dct kernel xs type n (-1) overwrite_x normalize) with
       | Return r => swapaxes r axis (-1)
       | Raise e => Raise e
       end)
  /\
  (forall A B C, shape x = [A; B; C] -> axis = 0%Z -> keeps_rank kernel ->
   exists xs,
     swapaxes x 0 2 = Return xs /\
     value (_dct kernel x type n 0 overwrite_x normalize)
     = match value (_dct kernel xs type n 2 overwrite_x normalize) with
       | Return r => swapaxes r 0 2
       | Raise e => Raise e
       end /\
     (forall f nm,
        isrealobj x = true -> n = None ->
        select_kernel (dtype x) type = Return f ->
        normalize_flag normalize = Return nm ->
        exists y,
          _dct kernel xs type n 2 overwrite_x normalize
          = (Return (kernel f xs (Z.of_nat A) nm overwrite_x),
             [call_of f Whole xs (Z.of_nat A) nm overwrite_x]) /\
          swapaxes (kernel f xs (Z.of_nat A) nm overwrite_x) 0 2 = Return y /\
          _dct kernel x type n 0 overwrite_x normalize
          = (Return y, [call_of f (Swapped 0) xs (Z.of_nat A) nm overwrite_x]))).
Proof.
  split; [|split; [|split]].
  - intros d f nm. apply _dct_reaches_kernel.
  - intros Hl y log Hrun.
    destruct (_dct_outcome E kernel x type n axis overwrite_x normalize)
      as [_ Hr|k _ _ Hr|_ _ _ Hr|d e _ _ _ _ Hr|d f _ _ _ _ _ _ Hr
         |d f nm _ _ _ _ _ _ Hr|d f nm xs _ _ _ _ _ Hl' _ _];
      try congruence.
    rewrite Hr in Hrun. injection Hrun as <- <-.
    eexists. repeat split.
  - intros Hl i Hi.
    destruct (_dct_through_swap x type n axis overwrite_x normalize i Hl Hi)
      as (xs & Hxs & _ & Hargs & Hrel).
    exists xs. split; [assumption|]. split; [assumption|].
    destruct Hrel as [(e & -> & ->) | (f & d & nm & -> & ->)]; reflexivity.
  - intros A B C Hshape -> Hrank.
    assert (Hnd : ndim x = 3%nat) by (unfold ndim; now rewrite Hshape).
    assert (Hl : is_last x 0 = false)
      by (unfold is_last; now rewrite Hshape).
    assert (Hi : normalize_index (ndim x) 0 = Some 0%nat)
      by now rewrite Hnd.
    destruct (_dct_through_swap x type n 0 overwrite_x normalize 0%nat Hl Hi)
      as (xs & Hxs & Hndxs & _ & Hrel).
    assert (Hsame : forall a : ndarray E, ndim a = 3%nat ->
              swapaxes a 0 (-1) = swapaxes a 0 2).
    { intros a Ha. apply swapaxes_same_axes; now rewrite Ha. }
    exists xs. split; [now rewrite <- Hsame|].
    assert (Hlastxs : _dct kernel xs type n 2 overwrite_x normalize
                      = _dct kernel xs type n (-1) overwrite_x normalize).
    { rewrite _dct_last_axis by lia. now rewrite Hndxs, Hnd. }
    rewrite Hlastxs. split.
    + destruct Hrel as [(e & -> & ->) | (f & d & nm & -> & ->)]; [reflexivity|].
      apply Hsame. rewrite Hrank. congruence.
    + intros f nm Hreal -> Hf Hnm.
      assert (Ha : tuple_getitem (shape x) 0 = Return A)
        by now rewrite Hshape.
      pose proof (_dct_reaches_kernel x type 0 overwrite_x normalize A f nm
                    Hreal Ha Hf Hnm) as Hreach.
      rewrite Hl in Hreach.
      destruct Hreach as (xs' & Hxs' & Hinner & Houter & Hback).
      assert (xs' = xs) as -> by congruence.
      destruct (Hback Hrank) as [y Hy].
      exists y. split; [assumption|]. split.
      * rewrite <- Hsame; [assumption|]. rewrite Hrank. congruence.
      * now rewrite Houter, Hy.
Qed.

(** C4.  On a complex-valued input every entry point, and the dispatcher
    for any transform type, ends in the [TypeError] of line 151 with no
    kernel invoked and nothing returned. *)
Theorem C4_complex_input_rejected x type n axis overwrite_x norm :
  iscomplexobj x = true ->
  let rejected := (Raise (Exc TypeError "1st argument must be real sequence" None),
                   @nil (kernel_call E)) in
  dct1 kernel x n axis norm = rejected /\
  dct2 kernel x n axis norm = rejected /\
  dct3 kernel x n axis norm = rejected /\
  _dct kernel x type n axis overwrite_x norm = rejected.
Proof.
  intros Hc rejected.
  assert (Hreal : isrealobj x = false) by (unfold isrealobj; now rewrite Hc).
  unfold dct1, dct2, dct3. repeat split; now apply _dct_not_real.
Qed.

(** C6 (amended).  The dispatch table has six slots, two element types by
    three transform types, and all six hold a kernel.  The kernel selected
    for a pair has the precision of the element type and the variant of
    the transform type, no two pairs share a kernel, and a pair outside the
    table selects none: no element type is coerced to another. *)
Theorem C6_dispatch_table :
  length slots = 6%nat /\
  filter populated slots = slots /\
  (forall t v h,
     select_kernel t v = Return h ->
     In (t, v) slots /\
     (t = float64 /\ handle_precision h = double_precision \/
      t = float32 /\ handle_precision h = single_precision) /\
     handle_variant h = v) /\
  (forall t v t' v' h,
     select_kernel t v = Return h -> select_kernel t' v' = Return h ->
     t = t' /\ v = v') /\
  (forall t v, ~ In (t, v) slots -> exists e, select_kernel t v = Raise e).
Proof.
  assert (Hin : forall t v h, select_kernel t v = Return h -> In (t, v) slots).
  { intros t v h H. destruct (select_kernel_Return _ _ _ H) as [Hp Hv].
    subst v. unfold slots.
    destruct Hp as [[-> _] | [-> _]]; destruct h; simpl; auto 10. }
  split; [reflexivity|]. split; [reflexivity|]. split; [|split].
  - intros t v h H. split; [now apply Hin with (h := h)|].
    now apply select_kernel_Return.
  - intros t v t' v' h H H'.
    destruct (select_kernel_Return _ _ _ H) as [Hp Hv].
    destruct (select_kernel_Return _ _ _ H') as [Hp' Hv'].
    split; [|congruence].
    destruct Hp as [[-> Hq] | [-> Hq]], Hp' as [[-> Hq'] | [-> Hq']];
      congruence.
  - intros t v Hout.
    destruct (select_kernel t v) as [h|e] eqn:Hs; [|now exists e].
    exfalso. apply Hout. now apply Hin with (h := h).
Qed.

(** C7.  A call ends in one of two ways: an exception, raised with no
    kernel invoked; or a returned array, after exactly one kernel
    invocation whose result it is (seen with the axes swapped back when the
    transform axis was not the last).  The kernels are taken to keep the
    rank of their argument. *)
Theorem C7_no_partial_failure x type n axis overwrite_x normalize :
  keeps_rank kernel ->
  let r := _dct kernel x type n axis overwrite_x normalize in
  (exists e, r = (Raise e, [])) \/
  (exists y c,
     r = (Return y, [c]) /\
     let out := kernel (k_fn c) (k_arg c) (k_n c) (k_nm c) (k_overwrite c) in
     match k_view c with
     | Whole => y = out
     | Swapped a => swapaxes out a (-1) = Return y
     end).
Proof.
  intros Hrank r. subst r.
  destruct (_dct_outcome E kernel x type n axis overwrite_x normalize)
    as [_ Hr|k _ _ Hr|_ _ _ Hr|d e _ _ _ _ Hr|d f _ _ _ _ _ _ Hr
       |d f nm _ _ _ _ _ _ Hr|d f nm xs _ _ Ha _ _ _ Hxs Hr];
    rewrite Hr; try (left; eexists; reflexivity).
  - right. eexists. eexists. split; [reflexivity|]. reflexivity.
  - right.
    destruct (swapaxes_last_in_range E x axis d Ha)
      as (i & _ & Hi & Hlast & _ & _).
    pose proof (swapaxes_ndim E _ _ _ _ Hxs) as Hnd.
    destruct (swapaxes_in_range E
                (kernel f xs (Z.of_nat d) nm overwrite_x) axis (-1)
                i (ndim x - 1)%nat) as [y Hy];
      try (now rewrite Hrank, Hnd).
    rewrite Hy. exists y. eexists. split; [reflexivity|]. exact Hy.
Qed.

(** C8.  The three entry points call the dispatcher with [overwrite_x]
    at 0.  Whatever the arguments, a call makes at most one kernel
    invocation, that invocation carries the flag 0, and the caller's array
    holds afterwards what it held before - the kernels leaving their
    argument alone when the flag is 0. *)
Theorem C8_input_left_untouched x n axis norm :
  well_formed x ->
  honours_overwrite kernel_arg_after ->
  (dct1 kernel x n axis norm = _dct kernel x 1 n axis 0 norm /\
   dct2 kernel x n axis norm = _dct kernel x 2 n axis 0 norm /\
   dct3 kernel x n axis norm = _dct kernel x 3 n axis 0 norm) /\
  forall r,
    In r [dct1 kernel x n axis norm; dct2 kernel x n axis norm;
          dct3 kernel x n axis norm] ->
    (length (calls r) <= 1)%nat /\
    Forall (fun c => k_overwrite c = 0%Z) (calls r) /\
    input_after kernel_arg_after x (calls r) = x.
Proof.
  intros Hwf Hkeep. split; [repeat split|].
  assert (Hany : forall type,
    let r := _dct kernel x type n axis 0 norm in
    (length (calls r) <= 1)%nat /\
    Forall (fun c => k_overwrite c = 0%Z) (calls r) /\
    input_after kernel_arg_after x (calls r) = x).
  { intros type r. subst r.
    destruct (_dct_outcome E kernel x type n axis 0 norm)
      as [_ Hr|k _ _ Hr|_ _ _ Hr|d e _ _ _ _ Hr|d f _ _ _ _ _ _ Hr
         |d f nm _ _ _ _ _ _ Hr|d f nm xs _ _ _ _ _ _ Hxs Hr];
      rewrite Hr; unfold calls, input_after; simpl;
      try (repeat split; [lia|constructor]).
    - repeat split; [lia|repeat constructor|]. apply Hkeep.
    - repeat split; [lia|repeat constructor|].
      rewrite Hkeep.
      now rewrite (swapaxes_involutive E x axis (-1) xs Hwf Hxs). }
  intros r [<- | [<- | [<- | []]]]; apply Hany.
Qed.

(** C9 (amended).  On a real-valued input whose element type is neither
    [float32] nor [float64], a call that omits the length and names an axis
    in range ends in the [ValueError] of line 177, with no kernel invoked. *)
Theorem C9_unsupported_dtype x type axis overwrite_x normalize d :
  isrealobj x = true ->
  dtype x <> float32 -> dtype x <> float64 ->
  tuple_getitem (shape x) axis = Return d ->
  _dct kernel x type None axis overwrite_x normalize
  = (Raise (Exc ValueError "dtype %s not supported" (Some (PyDtype (dtype x)))), []).
Proof.
  intros Hreal H32 H64 Ha.
  apply _dct_no_kernel with (d := d); try assumption.
  unfold select_kernel. revert H32 H64.
  destruct (dtype x); simpl; intros; congruence.
Qed.

(** C10 (amended).  On a single- or double-precision input with a
    transform type among 1, 2, 3, the length omitted and the axis in range,
    a falsy [normalize] - the empty string, 0, [False], like [None] -
    reaches the kernel: the kernel is invoked once, with the flag 0, and the
    call returns what the call with [None] returns (the kernels keeping the
    rank).  On any input a falsy [normalize] is handled exactly as [None] is:
    the call is the same call.  The [ValueError] of line 183 is reached only
    with a truthy [normalize] different from ["ortho"]. *)
Theorem C10_falsy_normalize_is_none x type n axis overwrite_x normalize :
  (truthy normalize = false ->
   dtype x = float32 \/ dtype x = float64 ->
   (type = 1 \/ type = 2 \/ type = 3)%Z ->
   forall d, tuple_getitem (shape x) axis = Return d ->
   exists c,
     calls (_dct kernel x type None axis overwrite_x normalize) = [c] /\
     k_nm c = 0%Z /\
     k_n c = Z.of_nat d /\
     select_kernel (dtype x) type = Return (k_fn c) /\
     (keeps_rank kernel ->
      exists y,
        value (_dct kernel x type None axis overwrite_x normalize) = Return y /\
        value (_dct kernel x type None axis overwrite_x PyNone) = Return y)) /\
  (truthy normalize = false ->
   _dct kernel x type n axis overwrite_x normalize
   = _dct kernel x type n axis overwrite_x PyNone /\
   Forall (fun c => k_nm c = 0%Z)
     (calls (_dct kernel x type n axis overwrite_x normalize))) /\
  (value (_dct kernel x type n axis overwrite_x normalize)
   = Raise (Exc ValueError "Unknown normalize mode %s" (Some normalize)) ->
   truthy normalize = true /\ eq_str normalize "ortho" = false).
Proof.
  assert (Hsame : forall n', truthy normalize = false ->
            _dct kernel x type n' axis overwrite_x normalize
            = _dct kernel x type n' axis overwrite_x PyNone).
  { intros n' Hf. unfold _dct, normalize_flag. rewrite Hf. reflexivity. }
  split; [|split].
  - intros Hfalsy Hdt Hty d Ha.
    assert (Hreal : isrealobj x = true)
      by (unfold isrealobj, iscomplexobj; destruct Hdt as [-> | ->]; reflexivity).
    assert (Hsel : exists f, select_kernel (dtype x) type = Return f).
    { unfold select_kernel.
      destruct Hdt as [-> | ->], Hty as [-> | [-> | ->]]; simpl; eauto. }
    destruct Hsel as [f Hf].
    pose proof (_dct_reaches_kernel x type axis overwrite_x normalize d f 0%Z
                  Hreal Ha Hf (normalize_flag_falsy _ Hfalsy)) as Hreach.
    rewrite <- (Hsame None Hfalsy).
    destruct (is_last x axis).
    + rewrite Hreach. eexists. repeat split; try assumption.
      intros _. eexists. split; reflexivity.
    + destruct Hreach as (xs & _ & _ & -> & Hback).
      eexists. repeat split; try assumption.
      intros Hrank. destruct (Hback Hrank) as [y Hy].
      exists y. unfold value. cbn [fst]. now split.
  - intros Hf. split; [now apply Hsame|].
    destruct (_dct_outcome E kernel x type n axis overwrite_x normalize)
      as [_ Hr|k _ _ Hr|_ _ _ Hr|d e _ _ _ _ Hr|d f _ _ _ _ _ _ Hr
         |d f nm _ _ _ _ Hn _ Hr|d f nm xs _ _ _ _ Hn _ _ Hr];
      rewrite Hr; unfold calls; simpl; try constructor; try constructor.
    + rewrite (normalize_flag_falsy _ Hf) in Hn. now injection Hn.
    + rewrite (normalize_flag_falsy _ Hf) in Hn. now injection Hn.
  - destruct (_dct_outcome E kernel x type n axis overwrite_x normalize)
      as [_ Hr|k _ _ Hr|_ _ _ Hr|d e _ _ _ Hsel Hr|d f _ _ _ _ Ht Ho Hr
         |d f nm _ _ _ _ _ _ Hr|d f nm xs _ _ _ _ _ _ _ Hr];
      rewrite Hr; unfold value; simpl; try discriminate.
    + apply select_kernel_Raise in Hsel as [-> | ->]; discriminate.
    + now intros _.
    + destruct (swapaxes _ axis (-1)) as [y|e] eqn:Hs; [discriminate|].
      apply swapaxes_Raise in Hs as [-> | ->]; discriminate.
Qed.

End Claims.

(** ** The composition of the two transforms, over the reals *)

(** *** Finite sums *)

Section Sums.
Local Open Scope R_scope.

Lemma sigma_cons lo len f : sigma lo (S len) f = f lo + sigma (S lo) len f.
Proof. reflexivity. Qed.

Lemma sigma_snoc lo len f :
  sigma lo (S len) f = sigma lo len f + f (lo + len)%nat.
Proof.
  unfold sigma. rewrite seq_S, map_app, fold_right_app. simpl.
  generalize (seq lo len) as l. induction l as [|a l IH]; simpl.
  - lra.
  - rewrite IH. lra.
Qed.

Lemma sigma_ext lo len f g :
  (forall k, (lo <= k < lo + len)%nat -> f k = g k) ->
  sigma lo len f = sigma lo len g.
Proof.
  revert lo. induction len as [|len IH]; intros lo H; [reflexivity|].
  rewrite !sigma_cons, H by lia. f_equal. apply IH. intros k Hk. apply H. lia.
Qed.

Lemma sigma_plus lo len f g :
  sigma lo len (fun k => f k + g k) = sigma lo len f + sigma lo len g.
Proof.
  revert lo. induction len as [|len IH]; intros lo.
  - unfold sigma. simpl. lra.
  - rewrite !sigma_cons, IH. lra.
Qed.

Lemma sigma_scal lo len c f :
  sigma lo len (fun k => c * f k) = c * sigma lo len f.
Proof.
  revert lo. induction len as [|len IH]; intros lo.
  - unfold sigma. simpl. lra.
  - rewrite !sigma_cons, IH. lra.
Qed.

Lemma sigma_zero lo len f :
  (forall k, (lo <= k < lo + len)%nat -> f k = 0) -> sigma lo len f = 0.
Proof.
  revert lo. induction len as [|len IH]; intros lo H; [reflexivity|].
  rewrite sigma_cons, H, IH by (try intros; try apply H; lia). lra.
Qed.

Lemma sigma_swap lo len lo' len' (f : nat -> nat -> R) :
  sigma lo len (fun i => sigma lo' len' (fun j => f i j))
  = sigma lo' len' (fun j => sigma lo len (fun i => f i j)).
Proof.
  revert lo. induction len as [|len IH]; intros lo.
  - unfold sigma at 1. simpl. symmetry. now apply sigma_zero.
  - rewrite sigma_cons, IH, <- sigma_plus. apply sigma_ext. intros j _.
    now rewrite sigma_cons.
Qed.

Lemma sigma_single lo len f m :
  (lo <= m < lo + len)%nat ->
  (forall k, (lo <= k < lo + len)%nat -> k <> m -> f k = 0) ->
  sigma lo len f = f m.
Proof.
  revert lo. induction len as [|len IH]; intros lo Hm H; [lia|].
  rewrite sigma_cons. destruct (Nat.eq_dec lo m) as [->|Hne].
  - rewrite sigma_zero; [lra|]. intros k Hk. apply H; lia.
  - rewrite H, IH by (try intros; try apply H; lia). lra.
Qed.

Lemma sigma_drop_first len f :
  sigma 1 len f = sigma 0 (S len) f - f 0%nat.
Proof. rewrite sigma_cons. lra. Qed.

End Sums.

(** *** Sums of cosines *)

Section Trig.
Local Open Scope R_scope.

Lemma cos_sin_nat_PI (j : nat) :
  cos (INR j * PI) = (-1) ^ j /\ sin (INR j * PI) = 0.
Proof.
  induction j as [|j [IHc IHs]].
  - simpl. rewrite Rmult_0_l. split; [apply cos_0|apply sin_0].
  - rewrite S_INR. replace ((INR j + 1) * PI) with (INR j * PI + PI) by lra.
    rewrite neg_cos, neg_sin, IHc, IHs. simpl. split; lra.
Qed.

(** The partial sums of cos (k t), in closed form up to the factor
    2 sin (t/2). *)
Lemma dirichlet N t :
  2 * sin (t / 2) * sigma 0 N (fun k => cos (INR k * t))
  = sin ((INR N - / 2) * t) + sin (t / 2).
Proof.
  induction N as [|N IH].
  - unfold sigma. simpl.
    replace ((0 - / 2) * t) with (- (t / 2)) by lra.
    rewrite sin_neg. lra.
  - rewrite sigma_snoc, Rmult_plus_distr_l, IH. simpl (0 + N)%nat.
    rewrite S_INR.
    pose proof (form4 ((INR N + 1 - / 2) * t) ((INR N - / 2) * t)) as H.
    replace (((INR N + 1 - / 2) * t + (INR N - / 2) * t) / 2)
      with (INR N * t) in H by lra.
    replace (((INR N + 1 - / 2) * t - (INR N - / 2) * t) / 2)
      with (t / 2) in H by lra.
    lra.
Qed.

Lemma sum_cos_zero N : sigma 0 N (fun k => cos (INR k * 0)) = INR N.
Proof.
  induction N as [|N IH]; [reflexivity|].
  rewrite sigma_snoc, IH, S_INR, Rmult_0_r, cos_0. lra.
Qed.

(** At the angles [j PI / N] with [0 < j < 2 N] the sum is 0 or 1, by the
    parity of [j]. *)
Lemma sum_cos_grid N j :
  (0 < j < 2 * N)%nat ->
  sigma 0 N (fun k => cos (INR k * (PI * INR j / INR N)))
  = (1 - (-1) ^ j) / 2.
Proof.
  intros Hj.
  assert (HN : 0 < INR N) by (apply lt_0_INR; lia).
  assert (Hj0 : 0 < INR j) by (apply lt_0_INR; lia).
  assert (Hj2 : INR j < 2 * INR N).
  { replace (2 * INR N) with (INR (2 * N)) by (rewrite mult_INR; simpl; lra).
    apply lt_INR. lia. }
  set (t := PI * INR j / INR N).
  pose proof (dirichlet N t) as HD.
  assert (Hhalf : 0 < t / 2 < PI).
  { unfold t. pose proof PI_RGT_0 as Hpi. split.
    - apply Rdiv_lt_0_compat; [|lra].
      apply Rdiv_lt_0_compat; [|assumption].
      now apply Rmult_lt_0_compat.
    - apply Rmult_lt_reg_r with (r := 2 * INR N); [lra|].
      replace (PI * INR j / INR N / 2 * (2 * INR N)) with (PI * INR j)
        by (field; lra).
      apply Rmult_lt_compat_l; assumption. }
  assert (Hs : 0 < sin (t / 2)) by (apply sin_gt_0; tauto).
  replace ((INR N - / 2) * t) with (INR j * PI - t / 2) in HD
    by (unfold t; field; lra).
  rewrite sin_minus in HD.
  destruct (cos_sin_nat_PI j) as [Hc Hz]. rewrite Hc, Hz in HD.
  apply Rmult_eq_reg_l with (r := 2 * sin (t / 2)); [|lra].
  rewrite HD. field.
Qed.

End Trig.

(** *** Orthogonality of the cosines *)

Section Orthogonality.
Local Open Scope R_scope.

Lemma cos_product N k n m :
  (0 < N)%nat -> (m <= n)%nat ->
  2 * cos (PI * INR k * (2 * INR n + 1) / (2 * INR N))
    * cos (PI * INR k * (2 * INR m + 1) / (2 * INR N))
  = cos (INR k * (PI * INR (n - m) / INR N))
    + cos (INR k * (PI * INR (n + m + 1) / INR N)).
Proof.
  intros HN Hmn.
  assert (HN' : INR N <> 0) by (apply not_0_INR; lia).
  set (A := PI * INR k * (2 * INR n + 1) / (2 * INR N)).
  set (B := PI * INR k * (2 * INR m + 1) / (2 * INR N)).
  replace (INR k * (PI * INR (n - m) / INR N)) with (A - B)
    by (unfold A, B; rewrite minus_INR by assumption; field; assumption).
  replace (INR k * (PI * INR (n + m + 1) / INR N)) with (A + B)
    by (unfold A, B; rewrite !plus_INR; simpl; field; assumption).
  rewrite cos_minus, cos_plus. ring.
Qed.

Lemma sum_cos_products N n m :
  (m < n < N)%nat ->
  sigma 0 N (fun k =>
               cos (PI * INR k * (2 * INR n + 1) / (2 * INR N))
               * cos (PI * INR k * (2 * INR m + 1) / (2 * INR N)))
  = / 2.
Proof.
  intros Hmn.
  rewrite sigma_ext with
    (g := fun k => / 2 * (cos (INR k * (PI * INR (n - m) / INR N))
                          + cos (INR k * (PI * INR (n + m + 1) / INR N)))).
  2: { intros k _. rewrite <- cos_product by lia. field. }
  rewrite sigma_scal, sigma_plus, !sum_cos_grid by lia.
  replace (n + m + 1)%nat with ((n - m) + S (2 * m))%nat by lia.
  rewrite pow_add, pow_1_odd. field.
Qed.

Lemma sum_cos_squares N n :
  (n < N)%nat ->
  sigma 0 N (fun k =>
               cos (PI * INR k * (2 * INR n + 1) / (2 * INR N))
               * cos (PI * INR k * (2 * INR n + 1) / (2 * INR N)))
  = (INR N + 1) / 2.
Proof.
  intros Hn.
  rewrite sigma_ext with
    (g := fun k => / 2 * (cos (INR k * 0)
                          + cos (INR k * (PI * INR (n + n + 1) / INR N)))).
  2: { intros k _. rewrite <- (Rmult_0_l (/ INR N)).
       replace (0 * / INR N) with (PI * INR (n - n) / INR N)
         by (rewrite Nat.sub_diag; simpl; unfold Rdiv; ring).
       rewrite <- cos_product by lia. field. }
  rewrite sigma_scal, sigma_plus, sum_cos_zero, sum_cos_grid by lia.
  replace (n + n + 1)%nat with (S (2 * n)) by lia.
  rewrite pow_1_odd. field.
Qed.

(** The cosines of the two transforms are orthogonal: the weight with
    which [x n] enters coefficient [m] of the composition. *)
Lemma dct_weight N n m :
  (n < N)%nat -> (m < N)%nat ->
  2 + 4 * sigma 1 (N - 1) (fun k =>
            cos (PI * INR k * (2 * INR n + 1) / (2 * INR N))
            * cos (PI * INR k * (2 * INR m + 1) / (2 * INR N)))
  = if (n =? m)%nat then 2 * INR N else 0.
Proof.
  intros Hn Hm.
  destruct N as [|N]; [lia|].
  replace (S N - 1)%nat with N by lia.
  rewrite sigma_drop_first.
  replace (cos (PI * INR 0 * (2 * INR n + 1) / (2 * INR (S N))))
    with 1 by (simpl (INR 0); rewrite <- cos_0; f_equal; unfold Rdiv; ring).
  replace (cos (PI * INR 0 * (2 * INR m + 1) / (2 * INR (S N))))
    with 1 by (simpl (INR 0); rewrite <- cos_0; f_equal; unfold Rdiv; ring).
  destruct (n =? m)%nat eqn:Hnm.
  - apply Nat.eqb_eq in Hnm. subst m.
    rewrite sum_cos_squares by assumption. field.
  - apply Nat.eqb_neq in Hnm.
    destruct (Nat.lt_ge_cases m n) as [Hlt|Hge].
    + rewrite sum_cos_products by lia. field.
    + rewrite sigma_ext with
        (g := fun k =>
                cos (PI * INR k * (2 * INR m + 1) / (2 * INR (S N)))
                * cos (PI * INR k * (2 * INR n + 1) / (2 * INR (S N))))
        by (intros; apply Rmult_comm).
      rewrite sum_cos_products by lia. field.
Qed.

End Orthogonality.

(** *** The variant-3 transform of the variant-2 transform *)

Section Composition.
Local Open Scope R_scope.

Lemma length_dct2_unnormalized x : length (dct2_unnormalized x) = length x.
Proof. unfold dct2_unnormalized. now rewrite length_map, length_seq. Qed.

Lemma length_dct3_unnormalized x : length (dct3_unnormalized x) = length x.
Proof. unfold dct3_unnormalized. now rewrite length_map, length_seq. Qed.

Lemma dct3_dct2_coefficient x m :
  (m < length x)%nat ->
  nth m (dct3_unnormalized (dct2_unnormalized x)) 0
  = 2 * INR (length x) * nth m x 0.
Proof.
  intros Hm. set (N := length x) in *.
  assert (HN : INR N <> 0) by (apply not_0_INR; lia).
  unfold dct3_unnormalized. rewrite length_dct2_unnormalized. fold N.
  rewrite nth_map_seq by assumption.
  unfold dct2_unnormalized. fold N.
  rewrite nth_map_seq by lia.
  (* each coefficient of the first transform, inside the second sum *)
  rewrite sigma_ext with (lo := 1%nat)
    (g := fun k =>
            sigma 0 N (fun n =>
              nth n x 0 *
              (2 * (cos (PI * INR k * (2 * INR n + 1) / (2 * INR N))
                    * cos (PI * INR k * (2 * INR m + 1) / (2 * INR N)))))).
  2: { intros k Hk. cbv beta. rewrite nth_map_seq by lia.
       replace (PI * (INR m + / 2) * INR k / INR N)
         with (PI * INR k * (2 * INR m + 1) / (2 * INR N))
         by (field; assumption).
       symmetry.
       rewrite sigma_ext with
         (g := fun n =>
                 (2 * cos (PI * INR k * (2 * INR m + 1) / (2 * INR N)))
                 * (nth n x 0
                    * cos (PI * INR k * (2 * INR n + 1) / (2 * INR N))))
         by (intros n _; ring).
       rewrite sigma_scal. ring. }
  rewrite sigma_swap.
  rewrite sigma_ext with (lo := 0%nat)
    (f := fun n => nth n x 0 * cos (PI * INR 0 * (2 * INR n + 1) / (2 * INR N)))
    (g := fun n => nth n x 0)
    by (intros n _; cbv beta; replace (PI * INR 0 * (2 * INR n + 1) / (2 * INR N))
          with 0 by (simpl (INR 0); unfold Rdiv; ring);
        rewrite cos_0; ring).
  rewrite <- !sigma_scal, <- sigma_plus.
  rewrite sigma_ext with
    (g := fun n =>
            nth n x 0 *
            (2 + 4 * sigma 1 (N - 1) (fun k =>
                  cos (PI * INR k * (2 * INR n + 1) / (2 * INR N))
                  * cos (PI * INR k * (2 * INR m + 1) / (2 * INR N))))).
  2: { intros n _. cbv beta. rewrite Rmult_plus_distr_l. f_equal; [ring|].
       rewrite <- !sigma_scal. apply sigma_ext. intros k _. ring. }
  rewrite sigma_single with (m := m); [| lia |].
  - rewrite dct_weight, Nat.eqb_refl by assumption. ring.
  - intros n Hn Hne. rewrite dct_weight by lia.
    apply Nat.eqb_neq in Hne. rewrite Hne. ring.
Qed.

(** The unnormalized DCT-III of the unnormalized DCT-II of [x] is [2 N x]. *)
Lemma dct3_dct2_unnormalized x :
  dct3_unnormalized (dct2_unnormalized x)
  = map (fun v => 2 * INR (length x) * v) x.
Proof.
  apply nth_ext with (d := 0) (d' := 2 * INR (length x) * 0).
  - now rewrite length_dct3_unnormalized, length_dct2_unnormalized, length_map.
  - intros m Hm.
    rewrite length_dct3_unnormalized, length_dct2_unnormalized in Hm.
    rewrite (map_nth (fun v => 2 * INR (length x) * v)).
    now apply dct3_dct2_coefficient.
Qed.

End Composition.
(** *** Through the dispatcher *)

Section Roundtrip.

Local Open Scope R_scope.

Variable kernel : _fftpack.handle -> ndarray R -> Z -> Z -> Z -> ndarray R.

Lemma dct_one_dimensional (type : Z) (t : scalar_type) (l : list R) f :
  t = float32 \/ t = float64 ->
  select_kernel t type = Return f ->
  _dct kernel {| dtype := t; shape := [length l]; data := l |}
    type None (-1) 0 PyNone
  = (Return (kernel f {| dtype := t; shape := [length l]; data := l |}
               (Z.of_nat (length l)) 0%Z 0%Z),
     [call_of f Whole {| dtype := t; shape := [length l]; data := l |}
        (Z.of_nat (length l)) 0%Z 0%Z]).
Proof.
  intros Ht Hf.
  apply _dct_direct; try reflexivity; try assumption.
  unfold isrealobj, iscomplexobj. simpl. now destruct Ht as [-> | ->].
Qed.

(** C5.  For a one-dimensional single- or double-precision sequence [x]
    of length [N], with kernels that compute the transforms of the spec
    over the reals: [dct2 x] returns, [dct3] of it returns, and the result
    is [2 N x] element by element, so that dividing it by [2 N] gives [x]
    back. *)
Theorem C5_dct3_of_dct2_is_2N_x (t : scalar_type) (l : list R) :
  computes_unnormalized kernel ->
  t = float32 \/ t = float64 ->
  exists y z,
    value (dct2 kernel {| dtype := t; shape := [length l]; data := l |}
             None (-1) PyNone) = Return y /\
    value (dct3 kernel y None (-1) PyNone) = Return z /\
    z = {| dtype := t; shape := [length l];
           data := map (fun v => 2 * INR (length l) * v) l |} /\
    map (fun v => v / (2 * INR (length l))) (data z) = l.
Proof.
  intros Hk Ht.
  set (x := {| dtype := t; shape := [length l]; data := l |}).
  assert (Hsel : exists f2 f3,
            select_kernel t 2 = Return f2 /\ handle_variant f2 = 2%Z /\
            select_kernel t 3 = Return f3 /\ handle_variant f3 = 3%Z).
  { destruct Ht as [-> | ->]; eexists; eexists; repeat split. }
  destruct Hsel as (f2 & f3 & Hf2 & Hv2 & Hf3 & Hv3).
  destruct (Hk f2 x (length l) 0%Z eq_refl eq_refl) as [H2 _].
  destruct (Hk f3 {| dtype := t; shape := [length l];
                     data := dct2_unnormalized l |}
              (length l) 0%Z eq_refl (length_dct2_unnormalized l)) as [_ H3].
  specialize (H2 Hv2). specialize (H3 Hv3). simpl in H2, H3.
  exists (kernel f2 x (Z.of_nat (length l)) 0%Z 0%Z).
  exists (kernel f3 (kernel f2 x (Z.of_nat (length l)) 0%Z 0%Z)
            (Z.of_nat (length l)) 0%Z 0%Z).
  split; [|split; [|split]].
  - unfold dct2, x. now rewrite dct_one_dimensional with (f := f2).
  - rewrite H2. unfold dct3.
    rewrite <- (length_dct2_unnormalized l) at 1 3.
    rewrite dct_one_dimensional with (f := f3) by assumption.
    now rewrite length_dct2_unnormalized.
  - rewrite H2, H3. now rewrite dct3_dct2_unnormalized.
  - rewrite H2, H3. simpl. rewrite dct3_dct2_unnormalized, map_map.
    rewrite <- (map_id l) at 2. apply map_ext_in. intros v Hin.
    assert (HN : INR (length l) <> 0).
    { apply not_0_INR. destruct l; [contradiction|discriminate]. }
    field. assumption.
Qed.

End Roundtrip.

(** ** The dispatcher on concrete inputs *)

Lemma along_last_axis_one_dimensional f (a : ndarray R) N :
  shape a = [N] -> length (data a) = N ->
  f [] = [] ->
  along_last_axis f a
  = {| dtype := dtype a; shape := [N]; data := f (data a) |}.
Proof.
  intros Hs Hl Hnil. unfold along_last_axis. rewrite Hs. simpl.
  f_equal. rewrite Nat.mul_1_r.
  destruct N as [|N].
  - simpl. apply length_zero_iff_nil in Hl. now rewrite Hl, Hnil.
  - rewrite Nat.div_same by discriminate. cbn [rows map concat].
    rewrite <- Hl, firstn_all. apply app_nil_r.
Qed.

Lemma formula_kernel_computes : computes_unnormalized formula_kernel.
Proof.
  intros h a N overwrite_x Hs Hl.
  split; intros Hv; unfold formula_kernel; rewrite Hv; simpl;
    now apply along_last_axis_one_dimensional.
Qed.

Lemma sample_kernel_keeps_rank : keeps_rank sample_kernel.
Proof. intros h a n nm overwrite_x. reflexivity. Qed.

Lemma sample_arg_after_honours_overwrite : honours_overwrite sample_arg_after.
Proof. intros h a n nm. reflexivity. Qed.

(** [np.swapaxes] on a 2 x 3 array is the transpose. *)
Example swapaxes_transposes :
  swapaxes (arange int64 [2%nat; 3%nat]) 0 1
  = Return {| dtype := int64; shape := [3%nat; 2%nat];
              data := [0; 3; 1; 4; 2; 5]%Z |}.
Proof. reflexivity. Qed.

(** Along the last axis the kernel receives the input itself... *)
Example dct2_along_last_axis :
  dct2 sample_kernel (arange float64 [2%nat; 3%nat]) None (-1) PyNone
  = (Return (sample_kernel _fftpack.ddct2 (arange float64 [2%nat; 3%nat]) 3 0 0),
     [call_of _fftpack.ddct2 Whole (arange float64 [2%nat; 3%nat]) 3 0 0]).
Proof. reflexivity. Qed.

(** ... and along axis 0 the transposed input, in single precision the
    single-precision kernel, with ["ortho"] the flag 1. *)
Example dct3_along_first_axis :
  calls (dct3 sample_kernel (arange float32 [2%nat; 3%nat]) None 0 (PyStr "ortho"))
  = [call_of _fftpack.dct3 (Swapped 0)
       {| dtype := float32; shape := [3%nat; 2%nat];
          data := [0; 3; 1; 4; 2; 5]%Z |} 2 1 0].
Proof. reflexivity. Qed.

(** C1, the claim as worded, fails on [np.arange(10.)]: the length 10,
    equal to the input's size, is rejected exactly as the length 5 is.
    Whatever exceptions one counts as the unsupported-feature error, "fails
    with it if and only if the length differs from the size" is false. *)
Lemma C1_counterexample :
  tuple_getitem (shape (arange float64 [10%nat])) (-1) = Return 10%nat /\
  isrealobj (arange float64 [10%nat]) = true /\
  _dct sample_kernel (arange float64 [10%nat]) 2 (Some 10%Z) (-1) 0 PyNone
  = (Raise padding_error, []) /\
  _dct sample_kernel (arange float64 [10%nat]) 2 (Some 5%Z) (-1) 0 PyNone
  = (Raise padding_error, []) /\
  ~ (exists unsupported : exception -> Prop,
       forall k : Z,
         (exists e,
            value (_dct sample_kernel (arange float64 [10%nat]) 2 (Some k)
                     (-1) 0 PyNone) = Raise e /\ unsupported e)
         <-> k <> 10%Z).
Proof.
  repeat split; try reflexivity.
  intros [unsupported Hiff].
  destruct (proj2 (Hiff 5%Z) ltac:(discriminate)) as (e & He & Hu).
  apply (proj1 (Hiff 10%Z)); [|reflexivity].
  exists e. split; [exact He | exact Hu].
Qed.

(** C1 on [np.arange(10.)]. *)
Lemma C1_witness :
  (forall k : Z,
     _dct sample_kernel (arange float64 [10%nat]) 2 (Some k) (-1) 0 PyNone
     = (Raise padding_error, [])) /\
  value (_dct sample_kernel (arange float64 [10%nat]) 2 None (-1) 0 PyNone)
  <> Raise padding_error.
Proof.
  apply (C1_supplied_length_is_rejected Z sample_kernel
           (arange float64 [10%nat]) 2 (-1) 0 PyNone).
  reflexivity.
Defined.

(** C2, the claim as worded, fails twice on [np.arange(10.)]: the empty
    string is a normalisation argument that is given and is not ["ortho"],
    and the call returns with the flag 0; and with a length supplied the
    unknown mode ["foo"] is never looked at, the call ending in the error of
    the length guard, which is no [ValueError]. *)
Lemma C2_counterexample :
  (exists y c,
     _dct sample_kernel (arange float64 [10%nat]) 2 None (-1) 0
       (PyStr EmptyString) = (Return y, [c]) /\ k_nm c = 0%Z) /\
  (_dct sample_kernel (arange float64 [10%nat]) 2 (Some 10%Z) (-1) 0
     (PyStr "foo") = (Raise padding_error, []) /\
   exc_class_of padding_error <> ValueError) /\
  ~ (forall (n : option Z) (normalize : pyval),
       normalize <> PyNone -> normalize <> PyStr "ortho" ->
       exists e,
         value (_dct sample_kernel (arange float64 [10%nat]) 2 n (-1) 0
                  normalize) = Raise e /\ exc_class_of e = ValueError).
Proof.
  split; [|split].
  - eexists. eexists. split; reflexivity.
  - split; [reflexivity|discriminate].
  - intros H.
    destruct (H None (PyStr EmptyString)) as (e & He & _); discriminate.
Qed.

(** C2 on a 2 x 3 double-precision array, along axis 0: ["foo"] is
    refused, ["ortho"] returns. *)
Lemma C2_witness :
  _dct sample_kernel (arange float64 [2%nat; 3%nat]) 2 None 0 0 (PyStr "foo")
  = (Raise (Exc ValueError "Unknown normalize mode %s" (Some (PyStr "foo"))), [])
  /\ exists y,
       value (_dct sample_kernel (arange float64 [2%nat; 3%nat]) 2 None 0 0
                (PyStr "ortho")) = Return y.
Proof.
  split.
  - apply (C2_normalize_modes Z sample_kernel (arange float64 [2%nat; 3%nat])
             2 0 0 (PyStr "foo") 2%nat);
      [right; reflexivity | right; left; reflexivity | reflexivity
      | reflexivity | reflexivity].
  - apply (C2_normalize_modes Z sample_kernel (arange float64 [2%nat; 3%nat])
             2 0 0 (PyStr "ortho") 2%nat);
      [right; reflexivity | right; left; reflexivity | reflexivity
      | exact sample_kernel_keeps_rank | left; reflexivity].
Defined.

(** C3 on a 2 x 3 x 4 single-precision array, along axis 0: the kernel
    [_fftpack.dct2] is invoked once, on the 4 x 3 x 2 array with axes 0 and
    2 swapped and with the length 2, which is the invocation the call along
    axis 2 of that array makes; the call returns its result swapped back. *)
Lemma C3_witness :
  exists xs y,
    swapaxes (arange float32 [2%nat; 3%nat; 4%nat]) 0 2 = Return xs /\
    _dct sample_kernel xs 2 None 2 0 PyNone
    = (Return (sample_kernel _fftpack.dct2 xs (Z.of_nat 2) 0 0),
       [call_of _fftpack.dct2 Whole xs (Z.of_nat 2) 0 0]) /\
    swapaxes (sample_kernel _fftpack.dct2 xs (Z.of_nat 2) 0 0) 0 2 = Return y /\
    _dct sample_kernel (arange float32 [2%nat; 3%nat; 4%nat]) 2 None 0 0 PyNone
    = (Return y, [call_of _fftpack.dct2 (Swapped 0) xs (Z.of_nat 2) 0 0]).
Proof.
  destruct (proj2 (proj2 (proj2 (C3_axis_handling Z sample_kernel
                                   (arange float32 [2%nat; 3%nat; 4%nat])
                                   2 None 0 0 PyNone)))
              2%nat 3%nat 4%nat eq_refl eq_refl sample_kernel_keeps_rank)
    as (xs & Hxs & _ & Hreach).
  destruct (Hreach _fftpack.dct2 0%Z eq_refl eq_refl eq_refl eq_refl)
    as (y & Hinner & Hback & Houter).
  exists xs, y. repeat split; assumption.
Defined.

(** C4 on a complex array of four elements. *)
Lemma C4_witness :
  dct1 sample_kernel (arange complex128 [4%nat]) None (-1) PyNone
  = (Raise (Exc TypeError "1st argument must be real sequence" None), []) /\
  dct2 sample_kernel (arange complex128 [4%nat]) None (-1) PyNone
  = (Raise (Exc TypeError "1st argument must be real sequence" None), []) /\
  dct3 sample_kernel (arange complex128 [4%nat]) None (-1) PyNone
  = (Raise (Exc TypeError "1st argument must be real sequence" None), []) /\
  _dct sample_kernel (arange complex128 [4%nat]) 2 None (-1) 0 PyNone
  = (Raise (Exc TypeError "1st argument must be real sequence" None), []).
Proof.
  apply (C4_complex_input_rejected Z sample_kernel (arange complex128 [4%nat])
           2 None (-1) 0 PyNone).
  reflexivity.
Defined.

(** C5 on the sequence 0, 1, ..., 9 in double precision. *)
Lemma C5_witness :
  exists y z,
    value (dct2 formula_kernel
             {| dtype := float64; shape := [10%nat];
                data := [0; 1; 2; 3; 4; 5; 6; 7; 8; 9]%R |}
             None (-1) PyNone) = Return y /\
    value (dct3 formula_kernel y None (-1) PyNone) = Return z /\
    z = {| dtype := float64; shape := [10%nat];
           data := map (fun v => 2 * INR 10 * v)%R
                       [0; 1; 2; 3; 4; 5; 6; 7; 8; 9]%R |} /\
    map (fun v => v / (2 * INR 10))%R (data z)
    = [0; 1; 2; 3; 4; 5; 6; 7; 8; 9]%R.
Proof.
  exact (C5_dct3_of_dct2_is_2N_x formula_kernel float64
           [0; 1; 2; 3; 4; 5; 6; 7; 8; 9]%R
           formula_kernel_computes (or_intror eq_refl)).
Defined.

(** C6, the claim as worded, miscounts: the table has six populated
    slots, not five. *)
Lemma C6_counterexample :
  length (filter populated slots) = 6%nat /\
  length (filter populated slots) <> 5%nat.
Proof. split; [reflexivity|discriminate]. Qed.

(** C6 at the slot (float32, 3). *)
Lemma C6_witness :
  In (float32, 3%Z) slots /\
  (float32 = float64 /\ handle_precision _fftpack.dct3 = double_precision \/
   float32 = float32 /\ handle_precision _fftpack.dct3 = single_precision) /\
  handle_variant _fftpack.dct3 = 3%Z.
Proof.
  apply (proj1 (proj2 (proj2 C6_dispatch_table)) float32 3%Z _fftpack.dct3).
  reflexivity.
Defined.

(** C7 on a 2 x 3 double-precision array, along axis 0. *)
Lemma C7_witness :
  (exists e,
     _dct sample_kernel (arange float64 [2%nat; 3%nat]) 2 None 0 0 PyNone
     = (Raise e, [])) \/
  (exists y c,
     _dct sample_kernel (arange float64 [2%nat; 3%nat]) 2 None 0 0 PyNone
     = (Return y, [c]) /\
     match k_view c with
     | Whole =>
         y = sample_kernel (k_fn c) (k_arg c) (k_n c) (k_nm c) (k_overwrite c)
     | Swapped a =>
         swapaxes
           (sample_kernel (k_fn c) (k_arg c) (k_n c) (k_nm c) (k_overwrite c))
           a (-1) = Return y
     end).
Proof.
  apply (C7_no_partial_failure Z sample_kernel (arange float64 [2%nat; 3%nat])
           2 None 0 0 PyNone).
  exact sample_kernel_keeps_rank.
Defined.

(** C8 for [dct2] on a 2 x 3 double-precision array, along axis 0, where
    the kernel works on a swapped view of the input. *)
Lemma C8_witness :
  (length (calls (dct2 sample_kernel (arange float64 [2%nat; 3%nat]) None 0
                    PyNone)) <= 1)%nat /\
  Forall (fun c => k_overwrite c = 0%Z)
    (calls (dct2 sample_kernel (arange float64 [2%nat; 3%nat]) None 0 PyNone)) /\
  input_after sample_arg_after (arange float64 [2%nat; 3%nat])
    (calls (dct2 sample_kernel (arange float64 [2%nat; 3%nat]) None 0 PyNone))
  = arange float64 [2%nat; 3%nat].
Proof.
  apply (proj2 (C8_input_left_untouched Z sample_kernel sample_arg_after
                  (arange float64 [2%nat; 3%nat]) None 0 PyNone
                  eq_refl sample_arg_after_honours_overwrite)).
  right. left. reflexivity.
Defined.

(** C9, the claim as worded, fails on the integer array [np.arange(10)]:
    with the length 10 supplied the call ends in the error of the length
    guard, and with the axis 3 in an [IndexError]; neither is a
    [ValueError]. *)
Lemma C9_counterexample :
  isrealobj (arange int64 [10%nat]) = true /\
  (_dct sample_kernel (arange int64 [10%nat]) 2 (Some 10%Z) (-1) 0 PyNone
   = (Raise padding_error, []) /\
   exc_class_of padding_error <> ValueError) /\
  _dct sample_kernel (arange int64 [10%nat]) 2 None 3 0 PyNone
  = (Raise (Exc IndexError "tuple index out of range" None), []) /\
  ~ (forall (n : option Z) (axis : Z),
       exists e,
         value (_dct sample_kernel (arange int64 [10%nat]) 2 n axis 0 PyNone)
         = Raise e /\ exc_class_of e = ValueError).
Proof.
  split; [reflexivity|]. split; [split; [reflexivity|discriminate]|].
  split; [reflexivity|].
  intros H. destruct (H (Some 10%Z) (-1)%Z) as (e & He & Hc).
  injection He as <-. discriminate Hc.
Qed.

(** C9 on the integer array [np.arange(10)]. *)
Lemma C9_witness :
  _dct sample_kernel (arange int64 [10%nat]) 2 None (-1) 0 PyNone
  = (Raise (Exc ValueError "dtype %s not supported" (Some (PyDtype int64))), []).
Proof.
  apply (C9_unsupported_dtype Z sample_kernel (arange int64 [10%nat])
           2 (-1) 0 PyNone 10%nat); [reflexivity|discriminate|discriminate
                                     |reflexivity].
Defined.

(** C10, the claim as worded, fails on the integer array [np.arange(10)]:
    the empty string is falsy and is not [None], and the call does not
    return; it ends in a [ValueError], that of the element type. *)
Lemma C10_counterexample :
  truthy (PyStr EmptyString) = false /\
  PyStr EmptyString <> PyNone /\
  _dct sample_kernel (arange int64 [10%nat]) 2 None (-1) 0 (PyStr EmptyString)
  = (Raise (Exc ValueError "dtype %s not supported" (Some (PyDtype int64))), [])
  /\
  ~ (forall (x : ndarray Z) (normalize : pyval),
       truthy normalize = false -> normalize <> PyNone ->
       exists y,
         value (_dct sample_kernel x 2 None (-1) 0 normalize) = Return y).
Proof.
  split; [reflexivity|]. split; [discriminate|]. split; [reflexivity|].
  intros H.
  destruct (H (arange int64 [10%nat]) (PyStr EmptyString) eq_refl)
    as [y Hy]; discriminate.
Qed.

(** C10 with the empty string on [np.arange(10.)]: one invocation of
    [_fftpack.ddct2] with the flag 0 and the length 10, and the call
    returns what the call with [None] returns. *)
Lemma C10_witness :
  exists c y,
    calls (_dct sample_kernel (arange float64 [10%nat]) 2 None (-1) 0
             (PyStr EmptyString)) = [c] /\
    k_fn c = _fftpack.ddct2 /\
    k_nm c = 0%Z /\
    k_n c = 10%Z /\
    value (_dct sample_kernel (arange float64 [10%nat]) 2 None (-1) 0
             (PyStr EmptyString)) = Return y /\
    value (_dct sample_kernel (arange float64 [10%nat]) 2 None (-1) 0
             PyNone) = Return y.
Proof.
  destruct (proj1 (C10_falsy_normalize_is_none Z sample_kernel
                     (arange float64 [10%nat]) 2 None (-1) 0
                     (PyStr EmptyString))
              eq_refl (or_intror eq_refl) (or_intror (or_introl eq_refl))
              10%nat eq_refl)
    as (c & Hc & Hnm & Hn & Hsel & Hret).
  destruct (Hret sample_kernel_keeps_rank) as (y & Hy & Hnone).
  exists c, y. repeat split; try assumption.
  injection Hsel as Hsel. now symmetry.
Defined.

(** ** Further properties of the dispatcher *)

Lemma eq_str_true v s : eq_str v s = true <-> v = PyStr s.
Proof.
  destruct v; simpl; try (split; [discriminate|discriminate]).
  rewrite String.eqb_eq. split; [now intros ->|now intros [= ->]].
Qed.

Lemma select_kernel_Return_iff t type :
  (exists f, select_kernel t type = Return f) <->
  (t = float32 \/ t = float64) /\ (type = 1 \/ type = 2 \/ type = 3)%Z.
Proof.
  split.
  - intros [f Hf]. destruct (select_kernel_Return _ _ _ Hf) as [Hp Hv].
    split; [destruct Hp as [[-> _] | [-> _]]; auto|].
    subst type. destruct f; simpl; auto.
  - intros [[-> | ->] [-> | [-> | ->]]]; eexists; reflexivity.
Qed.

Lemma normalize_flag_Return_iff normalize :
  (exists nm, normalize_flag normalize = Return nm) <->
  truthy normalize = false \/ normalize = PyStr "ortho".
Proof.
  unfold normalize_flag. split.
  - intros [nm H]. destruct (truthy normalize); [|now left].
    destruct (eq_str normalize "ortho") eqn:Ho; [|discriminate].
    right. now apply eq_str_true.
  - intros [-> | ->]; eexists; reflexivity.
Qed.

Lemma normalize_flag_values normalize nm :
  normalize_flag normalize = Return nm ->
  (nm = 0 \/ nm = 1)%Z /\ (nm = 1%Z <-> normalize = PyStr "ortho").
Proof.
  unfold normalize_flag.
  destruct (truthy normalize) eqn:Ht.
  - destruct (eq_str normalize "ortho") eqn:Ho; [|discriminate].
    intros [= <-]. apply eq_str_true in Ho. split; [now right|tauto].
  - intros [= <-]. split; [now left|].
    split; [discriminate|]. intros ->. discriminate Ht.
Qed.

Lemma tuple_getitem_out_of_range t i :
  normalize_index (length t) i = None ->
  tuple_getitem t i = Raise (Exc IndexError "tuple index out of range" None).
Proof. intros H. unfold tuple_getitem. now rewrite H. Qed.

Lemma tuple_getitem_Return_iff t i :
  (exists d, tuple_getitem t i = Return d) <->
  (exists k, normalize_index (length t) i = Some k).
Proof.
  split.
  - intros [d Hd]. apply tuple_getitem_Return in Hd as (k & Hk & _). eauto.
  - intros [k Hk]. now apply tuple_getitem_in_range with (k := k).
Qed.

(** [np.swapaxes] looks at its axes only through their normalised values. *)
Lemma swapaxes_normalized {E} (a : ndarray E) axis1 axis2 axis1' axis2' :
  normalize_index (ndim a) axis1 = normalize_index (ndim a) axis1' ->
  normalize_index (ndim a) axis2 = normalize_index (ndim a) axis2' ->
  swapaxes a axis1 axis2 = swapaxes a axis1' axis2'.
Proof. intros H1 H2. unfold swapaxes. now rewrite H1, H2. Qed.

Lemma normalize_index_negative len axis :
  (- Z.of_nat len <= axis < 0)%Z ->
  normalize_index len axis = normalize_index len (axis + Z.of_nat len).
Proof.
  intros Hax. unfold normalize_index.
  assert (H0 : (axis <? 0)%Z = true) by (apply Z.ltb_lt; lia).
  assert (H1 : (axis + Z.of_nat len <? 0)%Z = false) by (apply Z.ltb_ge; lia).
  now rewrite H0, H1.
Qed.

Lemma is_last_getitem {E} (x : ndarray E) axis d :
  is_last x axis = true ->
  tuple_getitem (shape x) axis = Return d ->
  tuple_getitem (shape x) (-1) = Return d.
Proof.
  unfold is_last. intros Hl Hd.
  apply orb_true_iff in Hl as [Hl | Hl]; apply Z.eqb_eq in Hl; [now subst|].
  unfold tuple_getitem in *.
  destruct (normalize_index (length (shape x)) axis) as [k|] eqn:Hk;
    [|discriminate].
  pose proof (normalize_index_bound _ _ _ Hk) as Hlt.
  rewrite normalize_index_last by lia.
  replace axis with (Z.of_nat (length (shape x) - 1)) in Hk by lia.
  rewrite normalize_index_nonneg in Hk by lia. now injection Hk as <-.
Qed.

Section Further.

Variable E : Type.
Variable kernel : _fftpack.handle -> ndarray E -> Z -> Z -> Z -> ndarray E.

Implicit Types (x : ndarray E) (type axis overwrite_x : Z) (n : option Z)
  (normalize norm : pyval).

Lemma float_is_real x :
  dtype x = float32 \/ dtype x = float64 -> isrealobj x = true.
Proof.
  unfold isrealobj, iscomplexobj. now intros [-> | ->].
Qed.

Lemma swap_back_in_range x axis d xs (r : ndarray E) :
  tuple_getitem (shape x) axis = Return d ->
  swapaxes x axis (-1) = Return xs ->
  ndim r = ndim xs ->
  exists y, swapaxes r axis (-1) = Return y.
Proof.
  intros Ha Hxs Hr.
  destruct (swapaxes_last_in_range E x axis d Ha) as (i & _ & Hi & Hlast & _ & _).
  pose proof (swapaxes_ndim E _ _ _ _ Hxs) as Hnd.
  apply swapaxes_in_range with (i := i) (j := (ndim x - 1)%nat);
    now rewrite Hr, Hnd.
Qed.

(** X1.  With kernels that keep the rank, a call returns an array exactly
    when the length is omitted, the axis is in range, the element type is
    [float32] or [float64], the transform type is 1, 2 or 3 and [normalize]
    is falsy or ["ortho"]. *)
Theorem dct_returns_iff x type n axis overwrite_x normalize :
  keeps_rank kernel ->
  ((exists y, value (_dct kernel x type n axis overwrite_x normalize) = Return y)
   <->
   n = None /\
   (exists i, normalize_index (ndim x) axis = Some i) /\
   (dtype x = float32 \/ dtype x = float64) /\
   (type = 1 \/ type = 2 \/ type = 3)%Z /\
   (truthy normalize = false \/ normalize = PyStr "ortho")).
Proof.
  intros Hrank. split.
  - intros [y Hy].
    destruct (_dct_outcome E kernel x type n axis overwrite_x normalize)
      as [_ Hr|k _ _ Hr|_ _ _ Hr|d e _ _ _ _ Hr|d f _ _ _ _ _ _ Hr
         |d f nm _ Hn Ha Hf Hnm _ Hr|d f nm xs _ Hn Ha Hf Hnm _ _ Hr];
      rewrite Hr in Hy; try discriminate Hy.
    + split; [assumption|]. split; [apply tuple_getitem_Return_iff; eauto|].
      destruct (proj1 (select_kernel_Return_iff _ _) (ex_intro _ f Hf)).
      repeat split; try assumption.
      apply normalize_flag_Return_iff. eauto.
    + split; [assumption|]. split; [apply tuple_getitem_Return_iff; eauto|].
      destruct (proj1 (select_kernel_Return_iff _ _) (ex_intro _ f Hf)).
      repeat split; try assumption.
      apply normalize_flag_Return_iff. eauto.
  - intros (-> & Hax & Hdt & Hty & Hnz).
    apply tuple_getitem_Return_iff in Hax as [d Ha].
    destruct (proj2 (select_kernel_Return_iff (dtype x) type)
                (conj Hdt Hty)) as [f Hf].
    apply normalize_flag_Return_iff in Hnz as [nm Hnm].
    pose proof (float_is_real x Hdt) as Hreal.
    destruct (is_last x axis) eqn:Hl.
    + rewrite (_dct_direct E kernel x type axis overwrite_x normalize d f nm)
        by assumption.
      eexists. reflexivity.
    + destruct (_dct_swapped E kernel x type axis overwrite_x normalize d f nm)
        as (xs & Hxs & ->); try assumption.
      unfold value. simpl.
      apply swap_back_in_range with (x := x) (d := d) (xs := xs);
        try assumption. apply Hrank.
Qed.

(** X2.  Each exception of the dispatcher has one cause, and the causes
    are examined in a fixed order: complex input; a length supplied; the
    axis out of range, reported by an [IndexError]; an element type other
    than [float32], [float64]; a transform type other than 1, 2, 3; a truthy
    [normalize] other than ["ortho"].  A later cause is reported only when
    all earlier checks pass. *)
Theorem dct_error_table x type n axis overwrite_x normalize :
  let v := value (_dct kernel x type n axis overwrite_x normalize) in
  (v = Raise (Exc TypeError "1st argument must be real sequence" None)
   <-> iscomplexobj x = true) /\
  (v = Raise padding_error
   <-> iscomplexobj x = false /\ n <> None) /\
  ((exists e, v = Raise e /\ exc_class_of e = IndexError)
   <-> iscomplexobj x = false /\ n = None /\
       normalize_index (ndim x) axis = None) /\
  (v = Raise (Exc ValueError "dtype %s not supported" (Some (PyDtype (dtype x))))
   <-> iscomplexobj x = false /\ n = None /\
       normalize_index (ndim x) axis <> None /\
       dtype x <> float32 /\ dtype x <> float64) /\
  (v = Raise (Exc ValueError "Type %d not understood" (Some (PyInt type)))
   <-> n = None /\ normalize_index (ndim x) axis <> None /\
       (dtype x = float32 \/ dtype x = float64) /\
       type <> 1%Z /\ type <> 2%Z /\ type <> 3%Z) /\
  (v = Raise (Exc ValueError "Unknown normalize mode %s" (Some normalize))
   <-> n = None /\ normalize_index (ndim x) axis <> None /\
       (dtype x = float32 \/ dtype x = float64) /\
       (type = 1 \/ type = 2 \/ type = 3)%Z /\
       truthy normalize = true /\ normalize <> PyStr "ortho").
Proof.
  intros v. subst v.
  assert (Hcx : iscomplexobj x = negb (isrealobj x))
    by (unfold isrealobj; now rewrite negb_involutive).
  assert (Hsel_err : forall e, select_kernel (dtype x) type = Raise e ->
            (e = Exc ValueError "dtype %s not supported" (Some (PyDtype (dtype x)))
             /\ dtype x <> float32 /\ dtype x <> float64) \/
            (e = Exc ValueError "Type %d not understood" (Some (PyInt type))
             /\ (dtype x = float32 \/ dtype x = float64)
             /\ type <> 1%Z /\ type <> 2%Z /\ type <> 3%Z)).
  { intros e. unfold select_kernel.
    destruct (dtype x); simpl;
      destruct (type =? 1)%Z eqn:H1; destruct (type =? 2)%Z eqn:H2;
      destruct (type =? 3)%Z eqn:H3; try discriminate; intros [= <-];
      try apply Z.eqb_neq in H1; try apply Z.eqb_neq in H2;
      try apply Z.eqb_neq in H3;
      first [ left; repeat split; discriminate
            | right; repeat split; auto ]. }
  assert (Hreal_float : dtype x = float32 \/ dtype x = float64 -> isrealobj x = true)
    by apply float_is_real.
  destruct (_dct_outcome E kernel x type n axis overwrite_x normalize)
    as [Hreal Hr|k Hreal Hn Hr|Hreal Hn Ha Hr|d e Hreal Hn Ha Hf Hr
       |d f Hreal Hn Ha Hf Ht Ho Hr
       |d f nm Hreal Hn Ha Hf Hnm _ Hr|d f nm xs Hreal Hn Ha Hf Hnm _ _ Hr];
    rewrite Hr; unfold value; cbn [fst]; rewrite Hcx, Hreal; cbn [negb];
    try subst n.
  all: try (assert (Hnone : normalize_index (ndim x) axis = None);
    [ unfold ndim;
      destruct (normalize_index (length (shape x)) axis) as [k0|] eqn:Hk0;
      [ destruct (tuple_getitem_in_range _ _ _ Hk0) as [d0 Hd0]; congruence
      | reflexivity ] | ]).
  all: try (assert (Hsome : normalize_index (ndim x) axis <> None);
    [ apply tuple_getitem_Return in Ha as (k0 & Hk0 & _); unfold ndim; congruence | ]).
  all: try (destruct (Hsel_err e Hf) as [(-> & H32 & H64) | (-> & Hdt & H1 & H2 & H3)]).
  all: try (destruct (proj1 (select_kernel_Return_iff _ _) (ex_intro _ f Hf))
      as [Hdt Hty]).
  all: try (assert (Hno : normalize <> PyStr "ortho");
    [ intros Heq; apply eq_str_true in Heq; congruence | ]).
  all: try (assert (Hok : truthy normalize = false \/ normalize = PyStr "ortho");
    [ apply normalize_flag_Return_iff; solve [eauto] | ]).
  all: try (assert (Hsw : forall e,
              swapaxes (kernel f xs (Z.of_nat d) nm overwrite_x) axis (-1)
              = Raise e ->
              exc_class_of e = ValueError /\
              (exc_msg e = "bad axis1 argument to swapaxes"%string \/
               exc_msg e = "bad axis2 argument to swapaxes"%string));
    [ intros e0 He0; apply swapaxes_Raise in He0 as [-> | ->]; solve [auto] | ]).
  all: repeat match goal with
              | |- _ /\ _ => split
              | |- _ <-> _ => split
              end; intros H;
    try (destruct (Hsw _ H) as [_ [Hm | Hm]]; discriminate Hm);
    try (destruct H as (e1 & He1 & Hc1);
         first [ destruct (Hsw _ He1) as [Hv1 _]; congruence
               | injection He1 as <-; discriminate Hc1
               | discriminate He1 ]);
    repeat match goal with
           | H : _ /\ _ |- _ => destruct H
           end;
    try discriminate; try congruence; try lia; try tauto;
    try (injection H as Hd; destruct Hdt as [Hd' | Hd']; rewrite Hd' in Hd; discriminate);
    try (destruct Hdt; congruence);
    try (destruct Hok; congruence);
    try match goal with
        | H : dtype _ = float32 \/ dtype _ = float64 |- _ =>
            first [ apply Hreal_float in H; congruence | destruct H; congruence ]
        end;
    try (repeat split;
         first [reflexivity | discriminate | assumption | congruence | lia]);
    try (eexists; split; reflexivity).
Qed.

End Further.

Section KernelCalls.

Variable E : Type.
Variable kernel : _fftpack.handle -> ndarray E -> Z -> Z -> Z -> ndarray E.

Implicit Types (x : ndarray E) (type axis overwrite_x : Z) (n : option Z)
  (normalize norm : pyval).

(** X3.  Whatever the axis, the kernel finds the transform on the last
    axis of its argument: the length [n] it is given is the input's size
    along the transform axis and the size of the last axis of the array it
    receives.  The kernel is the one selected for the input's element type
    and the transform type, the array has that element type, [overwrite_x]
    is passed on unchanged, and the normalisation flag is 1 for ["ortho"]
    and 0 otherwise. *)
Theorem kernel_call_arguments x type n axis overwrite_x normalize c :
  In c (calls (_dct kernel x type n axis overwrite_x normalize)) ->
  exists d,
    tuple_getitem (shape x) axis = Return d /\
    k_n c = Z.of_nat d /\
    tuple_getitem (shape (k_arg c)) (-1) = Return d /\
    select_kernel (dtype x) type = Return (k_fn c) /\
    dtype (k_arg c) = dtype x /\
    k_overwrite c = overwrite_x /\
    (k_nm c = 0 \/ k_nm c = 1)%Z /\
    (k_nm c = 1%Z <-> normalize = PyStr "ortho").
Proof.
  destruct (_dct_outcome E kernel x type n axis overwrite_x normalize)
    as [_ Hr|k _ _ Hr|_ _ _ Hr|d e _ _ _ _ Hr|d f _ _ _ _ _ _ Hr
       |d f nm _ _ Ha Hf Hnm Hl Hr|d f nm xs _ _ Ha Hf Hnm _ Hxs Hr];
    rewrite Hr; unfold calls; cbn [snd]; intros Hin;
    try contradiction; destruct Hin as [<- | []]; exists d; cbn.
  - destruct (normalize_flag_values _ _ Hnm) as [H01 Hortho].
    repeat split; try assumption; try tauto.
    now apply is_last_getitem with (axis := axis).
  - destruct (normalize_flag_values _ _ Hnm) as [H01 Hortho].
    destruct (swapaxes_last_in_range E x axis d Ha)
      as (i & _ & Hi & Hlast & _ & _).
    destruct (swapaxes_Return E _ _ _ _ Hxs) as (i' & j' & Hi' & Hj' & Ht & Hs & _).
    rewrite Hi in Hi'. rewrite Hlast in Hj'.
    injection Hi' as <-. injection Hj' as <-.
    repeat split; try assumption; try tauto.
    rewrite Hs. unfold ndim.
    now rewrite (tuple_getitem_swapped (shape x) axis i Hi).
Qed.

(** X4.  With kernels that return an array of the shape of their
    argument, the array a call returns has the shape of the input, along
    whichever axis the transform was taken. *)
Theorem dct_output_shape x type n axis overwrite_x normalize y :
  keeps_shape kernel ->
  value (_dct kernel x type n axis overwrite_x normalize) = Return y ->
  shape y = shape x.
Proof.
  intros Hshape.
  destruct (_dct_outcome E kernel x type n axis overwrite_x normalize)
    as [_ Hr|k _ _ Hr|_ _ _ Hr|d e _ _ _ _ Hr|d f _ _ _ _ _ _ Hr
       |d f nm _ _ Ha Hf Hnm Hl Hr|d f nm xs _ _ Ha Hf Hnm _ Hxs Hr];
    rewrite Hr; unfold value; cbn [fst]; try discriminate.
  - intros [= <-]. apply Hshape.
  - intros Hy.
    destruct (swapaxes_last_in_range E x axis d Ha)
      as (i & _ & Hi & Hlast & _ & _).
    pose proof (normalize_index_bound _ _ _ Hi) as Hlt.
    destruct (swapaxes_Return E _ _ _ _ Hxs) as (i' & j' & Hi' & Hj' & _ & Hs & _).
    rewrite Hi in Hi'. rewrite Hlast in Hj'.
    injection Hi' as <-. injection Hj' as <-.
    destruct (swapaxes_Return E _ _ _ _ Hy) as (i' & j' & Hi' & Hj' & _ & Hsy & _).
    assert (Hnd : ndim (kernel f xs (Z.of_nat d) nm overwrite_x) = ndim x).
    { unfold ndim. rewrite Hshape, Hs. apply length_swap_entries. }
    rewrite Hnd, Hi in Hi'. rewrite Hnd, Hlast in Hj'.
    injection Hi' as <-. injection Hj' as <-.
    rewrite Hsy, Hshape, Hs.
    apply swap_entries_involutive; unfold ndim in *; lia.
Qed.

(** X5.  A negative axis and the non-negative axis it stands for give the
    same result: for [-ndim <= axis < 0], the call along [axis] and the call
    along [axis + ndim] return the same array or raise the same exception
    (the kernels keeping the rank). *)
Theorem dct_negative_axis x type n axis overwrite_x normalize :
  keeps_rank kernel ->
  (- Z.of_nat (ndim x) <= axis < 0)%Z ->
  value (_dct kernel x type n axis overwrite_x normalize)
  = value (_dct kernel x type n (axis + Z.of_nat (ndim x)) overwrite_x normalize).
Proof.
  intros Hrank Hax.
  destruct (Z.eq_dec axis (-1)) as [-> | Hne].
  - rewrite _dct_last_axis by lia. f_equal. f_equal. lia.
  - pose proof (normalize_index_negative (ndim x) axis Hax) as Hnorm.
    assert (Hl : is_last x axis = false).
    { unfold is_last.
      apply orb_false_iff. split; apply Z.eqb_neq; unfold ndim in Hax; lia. }
    assert (Hl' : is_last x (axis + Z.of_nat (ndim x)) = false).
    { unfold is_last.
      apply orb_false_iff. split; apply Z.eqb_neq; unfold ndim in *; lia. }
    assert (Hget : tuple_getitem (shape x) (axis + Z.of_nat (ndim x))
                   = tuple_getitem (shape x) axis).
    { unfold tuple_getitem. fold (ndim x). now rewrite Hnorm. }
    assert (Hswx : swapaxes x (axis + Z.of_nat (ndim x)) (-1)
                   = swapaxes x axis (-1))
      by (apply swapaxes_normalized; [now rewrite Hnorm|reflexivity]).
    destruct (_dct_outcome E kernel x type n axis overwrite_x normalize)
      as [Hreal Hr|k Hreal Hn Hr|Hreal Hn Ha Hr|d e Hreal Hn Ha Hf Hr
         |d f Hreal Hn Ha Hf Ht Ho Hr
         |d f nm _ _ _ _ _ Hl0 _|d f nm xs Hreal Hn Ha Hf Hnm _ Hxs Hr];
      try congruence; rewrite Hr; try subst n.
    + now rewrite _dct_not_real.
    + now rewrite _dct_length_supplied.
    + rewrite _dct_bad_axis
        with (e := Exc IndexError "tuple index out of range" None);
        first [reflexivity | congruence].
    + rewrite _dct_no_kernel with (d := d) (e := e);
        first [reflexivity | congruence].
    + rewrite _dct_bad_normalize with (d := d) (f := f)
        (e := Exc ValueError "Unknown normalize mode %s" (Some normalize));
        first [reflexivity | congruence | idtac].
      unfold normalize_flag. now rewrite Ht, Ho.
    + destruct (_dct_swapped E kernel x type (axis + Z.of_nat (ndim x))
                  overwrite_x normalize d f nm)
        as (xs' & Hxs' & ->); try congruence.
      assert (xs' = xs) as -> by congruence.
      unfold value. cbn [fst]. symmetry.
      apply swapaxes_normalized; [|reflexivity].
      rewrite Hrank, (swapaxes_ndim E _ _ _ _ Hxs). now rewrite Hnorm.
Qed.

(** X6.  The three entry points reject the same calls in the same way:
    an exception raised by one of [dct1], [dct2], [dct3] is raised by the
    other two on the same arguments (the kernels keeping the rank). *)
Theorem entry_points_fail_alike x n axis norm e :
  keeps_rank kernel ->
  (value (dct1 kernel x n axis norm) = Raise e <->
   value (dct2 kernel x n axis norm) = Raise e) /\
  (value (dct2 kernel x n axis norm) = Raise e <->
   value (dct3 kernel x n axis norm) = Raise e).
Proof.
  intros Hrank.
  assert (Hstep : forall t t',
            (t = 1 \/ t = 2 \/ t = 3)%Z -> (t' = 1 \/ t' = 2 \/ t' = 3)%Z ->
            value (_dct kernel x t n axis 0 norm) = Raise e ->
            value (_dct kernel x t' n axis 0 norm) = Raise e).
  { intros t t' Ht Ht'.
    destruct (_dct_outcome E kernel x t n axis 0 norm)
      as [Hreal Hr|k Hreal Hn Hr|Hreal Hn Ha Hr|d e0 Hreal Hn Ha Hf Hr
         |d f Hreal Hn Ha Hf Htr Ho Hr
         |d f nm _ _ _ _ _ _ Hr|d f nm xs Hreal Hn Ha Hf Hnm _ Hxs Hr];
      rewrite Hr; unfold value; cbn [fst]; try discriminate; try subst n.
    - intros <-. now rewrite _dct_not_real.
    - intros <-. now rewrite _dct_length_supplied.
    - intros <-. now rewrite _dct_bad_axis
        with (e := Exc IndexError "tuple index out of range" None).
    - intros [= <-].
      rewrite _dct_no_kernel with (d := d) (e := e0); try easy.
      revert Hf. unfold select_kernel.
      destruct (dtype x); cbn;
        destruct Ht as [-> | [-> | ->]], Ht' as [-> | [-> | ->]]; cbn;
        congruence.
    - intros <-.
      destruct (proj1 (select_kernel_Return_iff _ _) (ex_intro _ f Hf))
        as [Hdt _].
      destruct (proj2 (select_kernel_Return_iff (dtype x) t') (conj Hdt Ht'))
        as [f' Hf'].
      rewrite _dct_bad_normalize with (d := d) (f := f')
        (e := Exc ValueError "Unknown normalize mode %s" (Some norm));
        try easy.
      unfold normalize_flag. now rewrite Htr, Ho.
    - intros He.
      destruct (swap_back_in_range E x axis d xs
                  (kernel f xs (Z.of_nat d) nm 0) Ha Hxs (Hrank _ _ _ _ _))
        as [y Hy].
      congruence. }
  unfold dct1, dct2, dct3. split; split; apply Hstep; auto.
Qed.

(** X7.  The two smallest ranks.  A zero-dimensional input is rejected
    whatever the other arguments are, with no kernel invoked.  A
    one-dimensional input is never swapped: a kernel that is reached
    receives the input itself. *)
Theorem rank_zero_and_rank_one x type n axis overwrite_x normalize :
  (ndim x = 0%nat ->
   exists e, _dct kernel x type n axis overwrite_x normalize = (Raise e, [])) /\
  (ndim x = 1%nat ->
   forall c, In c (calls (_dct kernel x type n axis overwrite_x normalize)) ->
             k_view c = Whole /\ k_arg c = x).
Proof.
  split; intros Hnd;
    destruct (_dct_outcome E kernel x type n axis overwrite_x normalize)
      as [_ Hr|k _ _ Hr|_ _ _ Hr|d e _ _ _ _ Hr|d f _ _ _ _ _ _ Hr
         |d f nm _ _ Ha _ _ Hl Hr|d f nm xs _ _ Ha _ _ Hl _ Hr];
    rewrite Hr; unfold calls; cbn [snd]; eauto; try contradiction.
  - apply tuple_getitem_Return in Ha as (k & Hk & _).
    apply normalize_index_bound in Hk. unfold ndim in Hnd. lia.
  - apply tuple_getitem_Return in Ha as (k & Hk & _).
    apply normalize_index_bound in Hk. unfold ndim in Hnd. lia.
  - intros c [<- | []]. split; reflexivity.
  - exfalso.
    apply tuple_getitem_Return in Ha as (k & Hk & _).
    unfold is_last in Hl. apply orb_false_iff in Hl as [H1 H2].
    apply Z.eqb_neq in H1, H2. unfold ndim in Hnd. rewrite Hnd in *.
    unfold normalize_index in Hk.
    destruct (axis <? 0)%Z eqn:Hneg;
      destruct ((0 <=? _) && (_ <? _))%Z eqn:Hin; try discriminate;
      apply andb_true_iff in Hin as [H0 H3];
      apply Z.leb_le in H0; apply Z.ltb_lt in H3;
      [apply Z.ltb_lt in Hneg|apply Z.ltb_ge in Hneg]; lia.
Qed.

End KernelCalls.

(** ** The swapped view holds the caller's elements *)

Section SwappedElements.

Variable E : Type.

Lemma swapped_source_inverse shp i j p :
  (i < length shp)%nat -> (j < length shp)%nat ->
  (p < size_of shp)%nat ->
  swapped_source shp i j (swapped_source (swap_entries i j shp) i j p) = p.
Proof.
  intros Hi Hj Hp. unfold swapped_source.
  rewrite swap_entries_involutive by assumption.
  pose proof (unravel_in_bounds shp p Hp) as Hb.
  pose proof (proj1 (in_bounds_nth _ _) Hb) as [Hlen _].
  rewrite unravel_ravel by (now apply in_bounds_swap).
  rewrite swap_entries_involutive by lia.
  now apply ravel_unravel.
Qed.

Lemma swapped_sources_permutation shp i j :
  (i < length shp)%nat -> (j < length shp)%nat ->
  Permutation (map (swapped_source shp i j)
                   (seq 0 (size_of (swap_entries i j shp))))
              (seq 0 (size_of shp)).
Proof.
  intros Hi Hj.
  set (shp' := swap_entries i j shp).
  assert (Hlen : length shp' = length shp) by apply length_swap_entries.
  assert (Hback : swap_entries i j shp' = shp)
    by now apply swap_entries_involutive.
  apply NoDup_Permutation.
  - apply NoDup_map_NoDup_ForallPairs; [|apply seq_NoDup].
    intros p q Hp Hq Heq. apply in_seq in Hp, Hq.
    rewrite <- (swapped_source_inverse shp' i j p) by (rewrite ?Hlen; lia).
    rewrite <- (swapped_source_inverse shp' i j q) by (rewrite ?Hlen; lia).
    rewrite Hback. now rewrite Heq.
  - apply seq_NoDup.
  - intros k. rewrite in_map_iff, in_seq. split.
    + intros (p & <- & Hp). apply in_seq in Hp.
      split; [lia|]. apply swapped_source_lt; fold shp'; lia.
    + intros [_ Hk]. exists (swapped_source shp' i j k). split.
      * now apply swapped_source_inverse.
      * apply in_seq. split; [lia|]. simpl.
        apply swapped_source_lt; rewrite ?Hlen, ?Hback; lia.
Qed.

Lemma gather_all (l : list E) : gather (seq 0 (length l)) l = l.
Proof.
  apply map_Some_inj. rewrite gather_Some; [apply map_nth_error_seq|].
  apply Forall_forall. intros p Hp. apply in_seq in Hp. lia.
Qed.

(** [np.swapaxes] rearranges the elements of a well-formed array and
    neither drops nor repeats one. *)
Lemma swapaxes_permutation (a b : ndarray E) axis1 axis2 :
  well_formed a ->
  swapaxes a axis1 axis2 = Return b ->
  Permutation (data b) (data a).
Proof.
  intros Hwf H.
  apply swapaxes_Return in H as (i & j & Hi & Hj & _ & _ & Hd).
  apply normalize_index_bound in Hi, Hj. unfold ndim in Hi, Hj.
  rewrite Hd. rewrite <- (gather_all (data a)) at 2.
  unfold gather. apply Permutation_flat_map.
  rewrite Hwf. now apply swapped_sources_permutation.
Qed.

Variable kernel : _fftpack.handle -> ndarray E -> Z -> Z -> Z -> ndarray E.

(** X8.  What the kernel is given is the caller's data: for a well-formed
    input, the array of every kernel invocation is well formed and its
    elements are the input's elements, rearranged when the transform axis
    is not the last and in the same order when it is. *)
Theorem kernel_receives_the_input (x : ndarray E) type n axis overwrite_x
    normalize c :
  well_formed x ->
  In c (calls (_dct kernel x type n axis overwrite_x normalize)) ->
  well_formed (k_arg c) /\
  Permutation (data (k_arg c)) (data x) /\
  (is_last x axis = true -> k_arg c = x).
Proof.
  intros Hwf.
  destruct (_dct_outcome E kernel x type n axis overwrite_x normalize)
    as [_ Hr|k _ _ Hr|_ _ _ Hr|d e _ _ _ _ Hr|d f _ _ _ _ _ _ Hr
       |d f nm _ _ _ _ _ Hl Hr|d f nm xs _ _ _ _ _ Hl Hxs Hr];
    rewrite Hr; unfold calls; cbn [snd]; intros Hin;
    try contradiction; destruct Hin as [<- | []]; cbn.
  - repeat split; [assumption|reflexivity].
  - split; [now apply swapaxes_well_formed with (a := x) (axis1 := axis)
                                               (axis2 := (-1)%Z)|].
    split; [now apply swapaxes_permutation with (axis1 := axis)
                                                (axis2 := (-1)%Z)|].
    congruence.
Qed.

End SwappedElements.

(** ** The exported names of the package *)

Lemma list_remove_Return l x r :
  list_remove l x = Return r <->
  exists pre post, l = pre ++ x :: post /\ ~ In x pre /\ r = pre ++ post.
Proof.
  revert r. induction l as [|y l IH]; intros r; simpl.
  - split; [discriminate|]. intros (pre & post & H & _). now destruct pre.
  - destruct (String.eqb y x) eqn:Hy.
    + apply String.eqb_eq in Hy. subst y. split.
      * intros [= <-]. exists [], l. auto.
      * intros (pre & post & H & Hnot & ->). destruct pre as [|z pre].
        -- now injection H as <-.
        -- injection H as <- _. exfalso. apply Hnot. now left.
    + apply String.eqb_neq in Hy.
      destruct (list_remove l x) as [r'|e] eqn:Hrem.
      * split.
        -- intros [= <-].
           destruct (proj1 (IH r') eq_refl) as (pre & post & -> & Hnot & ->).
           exists (y :: pre), post. repeat split.
           intros [Hin | Hin]; [congruence|contradiction].
        -- intros (pre & post & H & Hnot & ->). destruct pre as [|z pre].
           ++ injection H as -> _. congruence.
           ++ injection H as <- H.
              assert (Hr : Return r' = Return (pre ++ post)).
              { apply IH. exists pre, post. repeat split; [assumption|].
                intros Hin. apply Hnot. now right. }
              now injection Hr as ->.
      * split; [discriminate|].
        intros (pre & post & H & Hnot & ->). destruct pre as [|z pre].
        -- injection H as -> _. congruence.
        -- injection H as <- H.
           assert (Hr : Raise e = Return (pre ++ post)).
           { apply IH. exists pre, post. repeat split; [assumption|].
             intros Hin. apply Hnot. now right. }
           discriminate Hr.
Qed.

Lemma list_remove_Raise l x e :
  list_remove l x = Raise e <->
  ~ In x l /\ e = Exc ValueError "list.remove(x): x not in list" None.
Proof.
  induction l as [|y l IH]; simpl.
  - split; [intros [= <-]; auto | now intros [_ ->]].
  - destruct (String.eqb y x) eqn:Hy.
    + apply String.eqb_eq in Hy. split; [discriminate|].
      intros [Hnot _]. exfalso. apply Hnot. now left.
    + apply String.eqb_neq in Hy.
      destruct (list_remove l x) as [r'|e'] eqn:Hrem.
      * split; [discriminate|]. intros [Hnot He].
        assert (Hr : Return r' = Raise e)
          by (apply IH; split; [intros Hin; apply Hnot; now right|assumption]).
        discriminate Hr.
      * split.
        -- intros [= <-]. destruct (proj1 IH eq_refl) as [Hnot He].
           split; [|assumption]. intros [Hin | Hin]; [congruence|contradiction].
        -- intros [Hnot He]. f_equal. symmetry.
           assert (Hr : Raise e' = Raise e)
             by (apply IH; split; [intros Hin; apply Hnot; now right|assumption]).
           now injection Hr.
Qed.

(** X9.  Building [__all__] fails, with the [ValueError] of [list.remove],
    exactly when [numpy] does not export the name [linalg]. *)
Theorem scipy_all_fails_iff (numpy_all : list string) :
  (exists e, scipy_all numpy_all = Raise e) <-> ~ In "linalg"%string numpy_all.
Proof.
  unfold scipy_all. split.
  - intros [e He]. apply list_remove_Raise in He as [Hnot _].
    intros Hin. apply Hnot. simpl. right. apply in_or_app. now left.
  - intros Hnot. eexists. apply list_remove_Raise. split; [|reflexivity].
    simpl. intros [H | H]; [discriminate|].
    apply in_app_or in H as [H | H]; [contradiction|].
    simpl in H. repeat destruct H as [H | H]; try discriminate. exact H.
Qed.

(** X10.  When it succeeds, [__all__] is [test], then the names [numpy]
    exports in their order with the first [linalg] taken out, then [randn],
    [rand], [fft], [ifft].  So every other name of [numpy] is exported
    again, and [linalg] itself is exported only if [numpy] lists it more
    than once. *)
Theorem scipy_all_Return (numpy_all l : list string) :
  scipy_all numpy_all = Return l ->
  (exists pre post,
     numpy_all = pre ++ "linalg"%string :: post /\
     ~ In "linalg"%string pre /\
     l = "test"%string :: pre ++ post ++ ["randn"%string; "rand"%string; "fft"%string; "ifft"%string]) /\
  (forall s, s <> "linalg"%string -> In s numpy_all -> In s l) /\
  (In "linalg"%string l <-> (1 < count_occ string_dec numpy_all "linalg"%string)%nat).
Proof.
  unfold scipy_all. intros H.
  apply list_remove_Return in H as (pre0 & post0 & Heq & Hnot & ->).
  destruct pre0 as [|t pre]; [discriminate Heq|].
  simpl in Heq. injection Heq as <- Heq.
  assert (Hpre : ~ In "linalg"%string pre) by (intros Hin; apply Hnot; now right).
  assert (Hsplit : exists post,
            numpy_all = pre ++ "linalg"%string :: post /\
            post0 = post ++ ["randn"%string; "rand"%string; "fft"%string; "ifft"%string]).
  { clear Hnot. revert numpy_all Heq Hpre.
    induction pre as [|p pre IH]; intros numpy_all Heq Hpre.
    - destruct numpy_all as [|a rest].
      + simpl in Heq. discriminate Heq.
      + simpl in Heq. injection Heq as -> <-. exists rest. auto.
    - destruct numpy_all as [|a rest].
      + simpl in Heq. injection Heq as <- Heq.
        exfalso. clear IH.
        assert (Hin : In "linalg"%string
                        (pre ++ "linalg"%string :: post0))
          by (apply in_or_app; right; now left).
        destruct pre as [|q pre]; [discriminate Heq|].
        injection Heq as <- Heq.
        destruct pre as [|q pre]; [discriminate Heq|].
        injection Heq as <- Heq.
        destruct pre as [|q pre]; [discriminate Heq|].
        injection Heq as <- Heq.
        destruct pre; discriminate Heq.
      + simpl in Heq. injection Heq as -> Heq.
        destruct (IH rest Heq) as (post & -> & ->);
          [intros Hin; apply Hpre; now right|].
        exists post. auto. }
  destruct Hsplit as (post & -> & ->).
  split; [|split].
  - exists pre, post. split; [reflexivity|]. split; [assumption|].
    reflexivity.
  - intros s Hs Hin. simpl. right.
    apply in_app_or in Hin as [Hin | Hin].
    + apply in_or_app. now left.
    + destruct Hin as [Hin | Hin]; [congruence|].
      apply in_or_app. right. apply in_or_app. now left.
  - rewrite count_occ_app. cbn [count_occ].
    destruct (string_dec "linalg"%string "linalg"%string) as [_|Hne]; [|congruence].
    rewrite (proj1 (count_occ_not_In string_dec pre "linalg"%string) Hpre).
    simpl.
    split.
    + intros [Ht | Hin]; [discriminate|].
      apply in_app_or in Hin as [Hin | Hin]; [contradiction|].
      apply in_app_or in Hin as [Hin | Hin].
      * apply (count_occ_In string_dec) in Hin. lia.
      * simpl in Hin. repeat destruct Hin as [Hin | Hin]; try discriminate.
        contradiction.
    + intros Hc. right. apply in_or_app. right. apply in_or_app. left.
      apply (count_occ_In string_dec). lia.
Qed.

(** ** The orthonormal variant-2 matrix *)

Section Orthonormal.

Local Open Scope R_scope.

Lemma sum_cos_odd N t :
  2 * sin t * sigma 0 N (fun n => cos ((2 * INR n + 1) * t))
  = sin (2 * INR N * t).
Proof.
  induction N as [|N IH].
  - unfold sigma. simpl.
    replace (2 * 0 * t) with 0 by ring. rewrite sin_0. ring.
  - rewrite sigma_snoc, Rmult_plus_distr_l, IH. simpl (0 + N)%nat.
    rewrite S_INR.
    pose proof (form4 (2 * (INR N + 1) * t) (2 * INR N * t)) as H.
    replace ((2 * (INR N + 1) * t + 2 * INR N * t) / 2)
      with ((2 * INR N + 1) * t) in H by lra.
    replace ((2 * (INR N + 1) * t - 2 * INR N * t) / 2) with t in H by lra.
    lra.
Qed.

Lemma sum_cos_odd_grid N j :
  (0 < j < 2 * N)%nat ->
  sigma 0 N (fun n => cos ((2 * INR n + 1) * (PI * INR j / (2 * INR N)))) = 0.
Proof.
  intros Hj.
  assert (HN : 0 < INR N) by (apply lt_0_INR; lia).
  assert (Hj0 : 0 < INR j) by (apply lt_0_INR; lia).
  assert (Hj2 : INR j < 2 * INR N).
  { replace (2 * INR N) with (INR (2 * N)) by (rewrite mult_INR; simpl; lra).
    apply lt_INR. lia. }
  set (t := PI * INR j / (2 * INR N)).
  pose proof (sum_cos_odd N t) as HS.
  replace (2 * INR N * t) with (INR j * PI) in HS by (unfold t; field; lra).
  rewrite (proj2 (cos_sin_nat_PI j)) in HS.
  assert (Ht : 0 < t < PI).
  { unfold t. pose proof PI_RGT_0 as Hpi. split.
    - apply Rdiv_lt_0_compat; [|lra]. now apply Rmult_lt_0_compat.
    - apply Rmult_lt_reg_r with (r := 2 * INR N); [lra|].
      replace (PI * INR j / (2 * INR N) * (2 * INR N)) with (PI * INR j)
        by (field; lra).
      apply Rmult_lt_compat_l; assumption. }
  assert (Hs : 0 < sin t) by (apply sin_gt_0; tauto).
  apply Rmult_eq_reg_l with (r := 2 * sin t); [|lra].
  rewrite HS. ring.
Qed.

Lemma row_product N k k' n :
  (0 < N)%nat -> (k' <= k)%nat ->
  2 * cos (PI * INR k * (2 * INR n + 1) / (2 * INR N))
    * cos (PI * INR k' * (2 * INR n + 1) / (2 * INR N))
  = cos ((2 * INR n + 1) * (PI * INR (k - k') / (2 * INR N)))
    + cos ((2 * INR n + 1) * (PI * INR (k + k') / (2 * INR N))).
Proof.
  intros HN Hk.
  assert (HN' : INR N <> 0) by (apply not_0_INR; lia).
  set (A := PI * INR k * (2 * INR n + 1) / (2 * INR N)).
  set (B := PI * INR k' * (2 * INR n + 1) / (2 * INR N)).
  replace ((2 * INR n + 1) * (PI * INR (k - k') / (2 * INR N))) with (A - B)
    by (unfold A, B; rewrite minus_INR by assumption; field; assumption).
  replace ((2 * INR n + 1) * (PI * INR (k + k') / (2 * INR N))) with (A + B)
    by (unfold A, B; rewrite plus_INR; field; assumption).
  rewrite cos_minus, cos_plus. ring.
Qed.

Lemma sum_cos_odd_zero N :
  sigma 0 N (fun n => cos ((2 * INR n + 1) * (PI * INR 0 / (2 * INR N))))
  = INR N.
Proof.
  rewrite sigma_ext with (g := fun _ => 1).
  - induction N as [|N IH]; [reflexivity|].
    rewrite sigma_snoc, IH, S_INR. ring.
  - intros n _. cbv beta. rewrite <- cos_0. f_equal. simpl (INR 0).
    unfold Rdiv. ring.
Qed.

(** The rows of the unscaled matrix are orthogonal. *)
Lemma row_sums N k k' :
  (k' <= k < N)%nat ->
  sigma 0 N (fun n =>
               cos (PI * INR k * (2 * INR n + 1) / (2 * INR N))
               * cos (PI * INR k' * (2 * INR n + 1) / (2 * INR N)))
  = if (k =? k')%nat then (if (k =? 0)%nat then INR N else INR N / 2) else 0.
Proof.
  intros Hk.
  rewrite sigma_ext with
    (g := fun n => / 2 * (cos ((2 * INR n + 1) * (PI * INR (k - k') / (2 * INR N)))
                          + cos ((2 * INR n + 1) * (PI * INR (k + k') / (2 * INR N))))).
  2: { intros n _. cbv beta. rewrite <- row_product by lia. field. }
  rewrite sigma_scal, sigma_plus.
  destruct (k =? k')%nat eqn:Hkk.
  - apply Nat.eqb_eq in Hkk. subst k'. rewrite Nat.sub_diag, sum_cos_odd_zero.
    destruct (k =? 0)%nat eqn:Hk0.
    + apply Nat.eqb_eq in Hk0. subst k. simpl (0 + 0)%nat.
      rewrite sum_cos_odd_zero. field.
    + apply Nat.eqb_neq in Hk0. rewrite sum_cos_odd_grid by lia. field.
  - apply Nat.eqb_neq in Hkk. rewrite !sum_cos_odd_grid by lia. field.
Qed.

Lemma ortho_scale_square N k :
  (0 < N)%nat ->
  ortho_scale N k * ortho_scale N k
  = if (k =? 0)%nat then 1 / (4 * INR N) else 1 / (2 * INR N).
Proof.
  intros HN. assert (HN' : 0 < INR N) by (apply lt_0_INR; lia).
  unfold ortho_scale. destruct (k =? 0)%nat; apply sqrt_sqrt;
    apply Rlt_le; apply Rdiv_lt_0_compat; lra.
Qed.

(** X12.  The docstring of [dct2] says that the factors of the
    orthonormal mode make the matrix of coefficients orthonormal, [OO' =
    Id]: the rows of [O] have norm 1 and are pairwise orthogonal. *)
Theorem ortho_matrix_is_orthonormal N k k' :
  (k < N)%nat -> (k' < N)%nat ->
  sigma 0 N (fun n => ortho_matrix N k n * ortho_matrix N k' n)
  = if (k =? k')%nat then 1 else 0.
Proof.
  intros Hk Hk'.
  assert (HN : INR N <> 0) by (apply not_0_INR; lia).
  unfold ortho_matrix.
  rewrite sigma_ext with
    (g := fun n =>
            (4 * ortho_scale N k * ortho_scale N k')
            * (cos (PI * INR k * (2 * INR n + 1) / (2 * INR N))
               * cos (PI * INR k' * (2 * INR n + 1) / (2 * INR N))))
    by (intros n _; ring).
  rewrite sigma_scal.
  destruct (Nat.le_ge_cases k' k) as [Hle | Hle].
  - rewrite row_sums by lia.
    destruct (k =? k')%nat eqn:Hkk; [|ring].
    apply Nat.eqb_eq in Hkk. subst k'.
    replace (4 * ortho_scale N k * ortho_scale N k)
      with (4 * (ortho_scale N k * ortho_scale N k)) by ring.
    rewrite ortho_scale_square by lia.
    destruct (k =? 0)%nat; field; assumption.
  - rewrite sigma_ext with
      (g := fun n =>
              cos (PI * INR k' * (2 * INR n + 1) / (2 * INR N))
              * cos (PI * INR k * (2 * INR n + 1) / (2 * INR N)))
      by (intros; apply Rmult_comm).
    rewrite row_sums by lia. rewrite (Nat.eqb_sym k k').
    destruct (k' =? k)%nat eqn:Hkk; [|ring].
    apply Nat.eqb_eq in Hkk. subst k'.
    replace (4 * ortho_scale N k * ortho_scale N k)
      with (4 * (ortho_scale N k * ortho_scale N k)) by ring.
    rewrite ortho_scale_square by lia.
    destruct (k =? 0)%nat; field; assumption.
Qed.

End Orthonormal.

(** ** The axis handling loses nothing *)

(** X11.  With a kernel that returns its argument, a call that returns
    gives the input back: swapping the transform axis to the last position
    and back leaves every element where it was. *)
Theorem dct_with_identity_kernel_returns_input {E} (x y : ndarray E)
    type n axis overwrite_x normalize :
  well_formed x ->
  value (_dct identity_kernel x type n axis overwrite_x normalize) = Return y ->
  y = x.
Proof.
  intros Hwf.
  destruct (_dct_outcome E identity_kernel x type n axis overwrite_x normalize)
    as [_ Hr|k _ _ Hr|_ _ _ Hr|d e _ _ _ _ Hr|d f _ _ _ _ _ _ Hr
       |d f nm _ _ _ _ _ _ Hr|d f nm xs _ _ _ _ _ _ Hxs Hr];
    rewrite Hr; unfold value; cbn [fst]; try discriminate.
  - now intros [= <-].
  - unfold identity_kernel.
    rewrite (swapaxes_involutive E x axis (-1) xs Hwf Hxs). now intros [= <-].
Qed.

(** ** The further properties on concrete inputs *)

Lemma sample_kernel_keeps_shape : keeps_shape sample_kernel.
Proof. intros h a n nm overwrite_x. reflexivity. Qed.

(** X1 on a 2 x 3 double-precision array, along axis 0, with ["ortho"]. *)
Lemma dct_returns_iff_witness :
  (exists y,
     value (_dct sample_kernel (arange float64 [2%nat; 3%nat]) 2 None 0 0
              (PyStr "ortho")) = Return y)
  <->
  @None Z = None /\
  (exists i, normalize_index (ndim (arange float64 [2%nat; 3%nat])) 0 = Some i) /\
  (dtype (arange float64 [2%nat; 3%nat]) = float32 \/
   dtype (arange float64 [2%nat; 3%nat]) = float64) /\
  (2 = 1 \/ 2 = 2 \/ 2 = 3)%Z /\
  (truthy (PyStr "ortho") = false \/ PyStr "ortho" = PyStr "ortho").
Proof.
  apply (dct_returns_iff Z sample_kernel (arange float64 [2%nat; 3%nat])
           2 None 0 0 (PyStr "ortho")).
  exact sample_kernel_keeps_rank.
Defined.

(** X3 on a 2 x 3 double-precision array, along axis 0: the kernel is
    given the 3 x 2 transpose and the length 2. *)
Lemma kernel_call_arguments_witness :
  exists d,
    tuple_getitem (shape (arange float64 [2%nat; 3%nat])) 0 = Return d /\
    2%Z = Z.of_nat d /\
    tuple_getitem [3%nat; 2%nat] (-1) = Return d /\
    select_kernel float64 2 = Return _fftpack.ddct2 /\
    float64 = float64 /\
    0%Z = 0%Z /\
    (0 = 0 \/ 0 = 1)%Z /\
    (0%Z = 1%Z <-> PyNone = PyStr "ortho").
Proof.
  apply (kernel_call_arguments Z sample_kernel (arange float64 [2%nat; 3%nat])
           2 None 0 0 PyNone
           (call_of _fftpack.ddct2 (Swapped 0)
              {| dtype := float64; shape := [3%nat; 2%nat];
                 data := [0; 3; 1; 4; 2; 5]%Z |} 2 0 0)).
  left. reflexivity.
Defined.

(** X4 on a 2 x 3 x 4 single-precision array, along axis 1. *)
Lemma dct_output_shape_witness :
  shape (sample_kernel _fftpack.dct3 (arange float32 [2%nat; 3%nat; 4%nat]) 3 0 0)
  = [2%nat; 3%nat; 4%nat] /\
  forall y,
    value (_dct sample_kernel (arange float32 [2%nat; 3%nat; 4%nat])
             3 None 1 0 PyNone) = Return y ->
    shape y = [2%nat; 3%nat; 4%nat].
Proof.
  split; [reflexivity|]. intros y Hy.
  exact (dct_output_shape Z sample_kernel (arange float32 [2%nat; 3%nat; 4%nat])
           3 None 1 0 PyNone y sample_kernel_keeps_shape Hy).
Defined.

(** X5 on a 2 x 3 x 4 array: axis -2 is axis 1. *)
Lemma dct_negative_axis_witness :
  value (_dct sample_kernel (arange float64 [2%nat; 3%nat; 4%nat])
           2 None (-2) 0 PyNone)
  = value (_dct sample_kernel (arange float64 [2%nat; 3%nat; 4%nat])
             2 None (-2 + 3) 0 PyNone).
Proof.
  apply (dct_negative_axis Z sample_kernel
           (arange float64 [2%nat; 3%nat; 4%nat]) 2 None (-2) 0 PyNone).
  - exact sample_kernel_keeps_rank.
  - simpl. lia.
Defined.

(** X6 on an integer array: the three entry points raise the same
    [ValueError]. *)
Lemma entry_points_fail_alike_witness :
  (value (dct1 sample_kernel (arange int64 [4%nat]) None (-1) PyNone)
   = Raise (Exc ValueError "dtype %s not supported" (Some (PyDtype int64)))
   <->
   value (dct2 sample_kernel (arange int64 [4%nat]) None (-1) PyNone)
   = Raise (Exc ValueError "dtype %s not supported" (Some (PyDtype int64))))
  /\
  (value (dct2 sample_kernel (arange int64 [4%nat]) None (-1) PyNone)
   = Raise (Exc ValueError "dtype %s not supported" (Some (PyDtype int64)))
   <->
   value (dct3 sample_kernel (arange int64 [4%nat]) None (-1) PyNone)
   = Raise (Exc ValueError "dtype %s not supported" (Some (PyDtype int64)))).
Proof.
  apply (entry_points_fail_alike Z sample_kernel (arange int64 [4%nat])
           None (-1) PyNone).
  exact sample_kernel_keeps_rank.
Defined.

(** X7 on a scalar array and on a sequence. *)
Lemma rank_zero_and_rank_one_witness :
  (exists e, _dct sample_kernel (arange float64 []) 2 None (-1) 0 PyNone
             = (Raise e, [])) /\
  (forall c,
     In c (calls (_dct sample_kernel (arange float64 [5%nat]) 2 None 0 0 PyNone)) ->
     k_view c = Whole /\ k_arg c = arange float64 [5%nat]).
Proof.
  split.
  - apply (proj1 (rank_zero_and_rank_one Z sample_kernel (arange float64 [])
                    2 None (-1) 0 PyNone)).
    reflexivity.
  - apply (proj2 (rank_zero_and_rank_one Z sample_kernel (arange float64 [5%nat])
                    2 None 0 0 PyNone)).
    reflexivity.
Defined.

(** X8 on a 2 x 3 double-precision array, along axis 0. *)
Lemma kernel_receives_the_input_witness :
  well_formed {| dtype := float64; shape := [3%nat; 2%nat];
                 data := [0; 3; 1; 4; 2; 5]%Z |} /\
  Permutation [0; 3; 1; 4; 2; 5]%Z (data (arange float64 [2%nat; 3%nat])) /\
  (is_last (arange float64 [2%nat; 3%nat]) 0 = true ->
   {| dtype := float64; shape := [3%nat; 2%nat];
      data := [0; 3; 1; 4; 2; 5]%Z |} = arange float64 [2%nat; 3%nat]).
Proof.
  apply (kernel_receives_the_input Z sample_kernel
           (arange float64 [2%nat; 3%nat]) 2 None 0 0 PyNone
           (call_of _fftpack.ddct2 (Swapped 0)
              {| dtype := float64; shape := [3%nat; 2%nat];
                 data := [0; 3; 1; 4; 2; 5]%Z |} 2 0 0)).
  - reflexivity.
  - left. reflexivity.
Defined.

(** X10 with [numpy] exporting [abs], [linalg], [zeros]. *)
Lemma scipy_all_Return_witness :
  scipy_all ["abs"%string; "linalg"%string; "zeros"%string]
  = Return ["test"%string; "abs"%string; "zeros"%string; "randn"%string;
            "rand"%string; "fft"%string; "ifft"%string] /\
  forall s, s <> "linalg"%string ->
            In s ["abs"%string; "linalg"%string; "zeros"%string] ->
            In s ["test"%string; "abs"%string; "zeros"%string; "randn"%string;
                  "rand"%string; "fft"%string; "ifft"%string].
Proof.
  split; [reflexivity|].
  apply (proj1 (proj2 (scipy_all_Return
                         ["abs"%string; "linalg"%string; "zeros"%string]
                         ["test"%string; "abs"%string; "zeros"%string;
                          "randn"%string; "rand"%string; "fft"%string;
                          "ifft"%string]
                         eq_refl))).
Defined.

(** X11 on a 2 x 3 x 4 array, along axis 0. *)
Lemma dct_with_identity_kernel_witness :
  exists y,
    value (_dct identity_kernel (arange float64 [2%nat; 3%nat; 4%nat])
             2 None 0 0 PyNone) = Return y /\
    y = arange float64 [2%nat; 3%nat; 4%nat].
Proof.
  exists (arange float64 [2%nat; 3%nat; 4%nat]).
  split; [reflexivity|].
  exact (dct_with_identity_kernel_returns_input
           (arange float64 [2%nat; 3%nat; 4%nat])
           (arange float64 [2%nat; 3%nat; 4%nat])
           2 None 0 0 PyNone eq_refl eq_refl).
Defined.

(** X12 for [N = 4]: rows 1 and 2 are orthogonal, row 0 has norm 1. *)
Lemma ortho_matrix_is_orthonormal_witness :
  sigma 0 4 (fun n => ortho_matrix 4 1 n * ortho_matrix 4 2 n)%R = 0%R /\
  sigma 0 4 (fun n => ortho_matrix 4 0 n * ortho_matrix 4 0 n)%R = 1%R.
Proof.
  split.
  - apply (ortho_matrix_is_orthonormal 4 1 2); lia.
  - apply (ortho_matrix_is_orthonormal 4 0 0); lia.
Defined.
